(** * promplate.prompt.template: the template compiler, its render
      environment and the loader, embedded in Rocq.

    The development follows [src/python/promplate/prompt/template.py].
    Python strings are modelled as [string] (characters are 8-bit code
    points), dictionaries as [gmap string _], the mutable fields of a
    [TemplateCore] instance as a record threaded through a small
    state-and-exception monad.  The routine that [compile] writes is kept
    as the text it is in the source; a model of the Python constructs
    that this text uses runs it. *)

From Stdlib Require Import Ascii String ZArith.
From stdpp Require Import base option list strings gmap pretty.

(** ** Python string primitives used by the source *)

Module PyStr.

(** [str.isspace] on one character, restricted to code points below 256:
    TAB, LF, VT, FF, CR, FS, GS, RS, US, SPACE, NEL and NBSP. *)
Definition is_space (c : ascii) : bool :=
  match c with
  | "009" | "010" | "011" | "012" | "013"
  | "028" | "029" | "030" | "031" | " " | "133" | "160" => true
  | _ => false
  end%char.

Definition is_dash (c : ascii) : bool :=
  match c with "-"%char => true | _ => false end.

Definition is_empty (s : string) : bool :=
  match s with EmptyString => true | _ => false end.

(** [s.lstrip(chars)] for the character class [p]. *)
Fixpoint lstrip_with (p : ascii → bool) (s : string) : string :=
  match s with
  | EmptyString => EmptyString
  | String c s' => if p c then lstrip_with p s' else s
  end.

(** [s.rstrip(chars)] for the character class [p]. *)
Fixpoint rstrip_with (p : ascii → bool) (s : string) : string :=
  match s with
  | EmptyString => EmptyString
  | String c s' =>
      let r := rstrip_with p s' in
      if is_empty r && p c then EmptyString else String c r
  end.

Definition strip_with (p : ascii → bool) (s : string) : string :=
  rstrip_with p (lstrip_with p s).

(** [s.strip()] and [s.strip("-")]. *)
Definition strip (s : string) : string := strip_with is_space s.
Definition strip_dash (s : string) : string := strip_with is_dash s.

(** [s[2:-2]]: the start index 2 and the stop index [len(s) - 2] are
    clamped to the string, so that a string of at most four characters
    gives the empty string. *)
Definition slice_2_m2 (s : string) : string :=
  String.substring 2 (String.length s - 4) s.

(** [s.startswith(p)]. *)
Fixpoint startswith (p s : string) : bool :=
  match p, s with
  | EmptyString, _ => true
  | String a p', String b s' => if decide (a = b) then startswith p' s' else false
  | String _ _, EmptyString => false
  end.

(** [s[n:]] for a non-negative [n]. *)
Fixpoint drop (n : nat) (s : string) : string :=
  match n, s with
  | O, _ => s
  | S n', String _ s' => drop n' s'
  | S _, EmptyString => EmptyString
  end.

(** [s.removeprefix(p)]. *)
Definition removeprefix (p s : string) : string :=
  if startswith p s then drop (String.length p) s else s.

(** [s.endswith(c)] for one character, and [s[:-1]]. *)
Fixpoint ends_with_char (c : ascii) (s : string) : bool :=
  match s with
  | EmptyString => false
  | String a EmptyString => bool_decide (a = c)
  | String _ s' => ends_with_char c s'
  end.

Fixpoint drop_last (s : string) : string :=
  match s with
  | EmptyString => EmptyString
  | String _ EmptyString => EmptyString
  | String a s' => String a (drop_last s')
  end.

(** [c in s]. *)
Fixpoint contains_char (c : ascii) (s : string) : bool :=
  match s with
  | EmptyString => false
  | String a s' => if decide (a = c) then true else contains_char c s'
  end.

(** [s.split(c, 1)[0]]: the text before the first [c], the whole string
    when it has none. *)
Fixpoint before_char (c : ascii) (s : string) : string :=
  match s with
  | EmptyString => EmptyString
  | String a s' =>
      if decide (a = c) then EmptyString else String a (before_char c s')
  end.

(** [s[s.index(c) + 1:]], used under the guard [c in s]. *)
Fixpoint after_char (c : ascii) (s : string) : string :=
  match s with
  | EmptyString => EmptyString
  | String a s' => if decide (a = c) then s' else after_char c s'
  end.

(** [" " in s], [s.split(" ", 1)[0]] and [s[s.index(" ") + 1:]]. *)
Definition has_space (s : string) : bool := contains_char " " s.
Definition before_space (s : string) : string := before_char " " s.
Definition after_space (s : string) : string := after_char " " s.

(** [s.split(c)]. *)
Fixpoint split_on (c : ascii) (s : string) : list string :=
  match s with
  | EmptyString => [EmptyString]
  | String a s' =>
      if decide (a = c) then EmptyString :: split_on c s'
      else match split_on c s' with
           | w :: ws => String a w :: ws
           | [] => [String a EmptyString]
           end
  end.

(** [''.join(l)]. *)
Definition join (l : list string) : string := foldr String.append EmptyString l.

(** *** [repr] of a string

    CPython's [unicode_repr], for code points below 256.  The quote is
    the double quote exactly when the text holds a single quote and no
    double quote.  The quote and the backslash are escaped with a
    backslash; TAB, LF and CR are written [\t], [\n], [\r]; the other
    characters that are not printable are written [\xhh]. *)

Definition squote : ascii := "039"%char.
Definition dquote : ascii := "034"%char.
Definition backslash : ascii := "092"%char.

Definition repr_quote (s : string) : ascii :=
  if contains_char squote s && negb (contains_char dquote s)
  then dquote else squote.

(** [str.isprintable] on one character: below 256 the characters that
    are not printable are the controls (0-31, 127-159), NBSP (160) and
    the soft hyphen (173). *)
Definition is_printable (c : ascii) : bool :=
  let n := nat_of_ascii c in
  negb ((n <? 32) || ((126 <? n) && (n <? 161)) || (n =? 173)).

Definition hex_digit (n : nat) : ascii :=
  match n with
  | 0 => "0" | 1 => "1" | 2 => "2" | 3 => "3" | 4 => "4"
  | 5 => "5" | 6 => "6" | 7 => "7" | 8 => "8" | 9 => "9"
  | 10 => "a" | 11 => "b" | 12 => "c" | 13 => "d" | 14 => "e"
  | _ => "f"
  end%char.

(** The value of a hexadecimal digit, in either case. *)
Definition hex_value (c : ascii) : option nat :=
  let n := nat_of_ascii c in
  if (48 <=? n) && (n <=? 57) then Some (n - 48)
  else if (97 <=? n) && (n <=? 102) then Some (n - 87)
  else if (65 <=? n) && (n <=? 70) then Some (n - 55)
  else None.

(** The escaped form of one character inside quotes [q], followed by
    [k]. *)
Definition repr_char (q c : ascii) (k : string) : string :=
  if bool_decide (c = q) || bool_decide (c = backslash)
  then String backslash (String c k)
  else if bool_decide (c = "009"%char) then String backslash (String "t" k)
  else if bool_decide (c = "010"%char) then String backslash (String "n" k)
  else if bool_decide (c = "013"%char) then String backslash (String "r" k)
  else if is_printable c then String c k
  else String backslash (String "x"
         (String (hex_digit (nat_of_ascii c / 16))
            (String (hex_digit (nat_of_ascii c mod 16)) k))).

Fixpoint repr_body (q : ascii) (s : string) : string :=
  match s with
  | EmptyString => String q EmptyString
  | String c s' => repr_char q c (repr_body q s')
  end.

(** [repr(s)]. *)
Definition repr (s : string) : string :=
  let q := repr_quote s in String q (repr_body q s).

(** *** Reading a string literal

    The inverse direction, as Python's lexer reads a short string
    literal with no prefix: the text between the quotes, with the escape
    sequences [\\], [\'], [\dquote], [\n], [\r], [\t] and [\xhh]
    replaced.  A text that is not wholly one such literal gives [None]. *)
Fixpoint literal_body (q : ascii) (s : string) : option string :=
  match s with
  | EmptyString => None
  | String c s' =>
      if bool_decide (c = q) then
        (if is_empty s' then Some EmptyString else None)
      else if bool_decide (c = backslash) then
        match s' with
        | String e s'' =>
            if bool_decide (e = backslash) || bool_decide (e = squote)
               || bool_decide (e = dquote)
            then String e <$> literal_body q s''
            else if bool_decide (e = "n"%char)
            then String "010"%char <$> literal_body q s''
            else if bool_decide (e = "r"%char)
            then String "013"%char <$> literal_body q s''
            else if bool_decide (e = "t"%char)
            then String "009"%char <$> literal_body q s''
            else if bool_decide (e = "x"%char) then
              match s'' with
              | String h (String l s3) =>
                  match hex_value h, hex_value l with
                  | Some a, Some b =>
                      String (ascii_of_nat (16 * a + b)) <$> literal_body q s3
                  | _, _ => None
                  end
              | _ => None
              end
            else None
        | EmptyString => None
        end
      else if bool_decide (c = "010"%char) || bool_decide (c = "013"%char)
      then None
      else String c <$> literal_body q s'
  end.

Definition read_literal (e : string) : option string :=
  match e with
  | String q s =>
      if bool_decide (q = squote) || bool_decide (q = dquote)
      then literal_body q s else None
  | EmptyString => None
  end.

End PyStr.

(** ** The token normalizer *)

(** [TemplateCore._unwrap_token]:
    [token.strip()[2:-2].strip("-").strip()]. *)
Definition _unwrap_token (token : string) : string :=
  PyStr.strip (PyStr.strip_dash (PyStr.slice_2_m2 (PyStr.strip token))).


(** ** Exceptions and results *)

(** The exceptions that leave [compile] and [render].  [SyntaxError]
    carries the block stack that [compile] raises it with; the other
    constructors carry nothing. *)
Inductive exn : Type :=
| AssertionError            (* [assert last == inner.removeprefix("end")] *)
| IndexError                (* [pop] from an empty list *)
| SyntaxError (ops : list string)  (* [raise SyntaxError(self._ops_stack)] *)
| AttributeError            (* [self._builder] read before any [compile] *)
| LexicalError              (* the tokenizer: a delimiter with no end *)
| DedentError               (* the builder: [dedent] below zero *)
| AwaitOutsideAsync         (* Python: [await] in a routine that is not async *)
| EvaluationError           (* any exception raised while the routine runs *)
| ExternalError.            (* an exception of the network library *)

Inductive result (A : Type) : Type :=
| Ok (a : A)
| Raise (e : exn).
Arguments Ok {A} a.
Arguments Raise {A} e.

(** ** The tokenizer *)

Module Tokenizer.

(** Modelled from the spec: the closing delimiter's first character for
    the opening delimiter whose second character is [d]: [{{ }}], [{% %}], [{# #}]. *)
Definition closer (d : ascii) : option ascii :=
  match d with
  | "{" => Some "}"
  | "%" => Some "%"
  | "#" => Some "#"
  | _ => None
  end%char.

(** Modelled from the spec: reading literal text, or inside a span
    whose closing delimiter starts with [c]. *)
Inductive lex_state : Type :=
| InLiteral
| InSpan (c : ascii).

(** Modelled from the spec: a literal run of zero length is omitted. *)
Definition emit_literal (cur : string) : list string :=
  if PyStr.is_empty cur then [] else [cur].

(** Modelled from the spec: [lex st cur s], where [cur] is the text of
    the token being read and [s] what is left of the input. *)
Fixpoint lex (st : lex_state) (cur : string) (s : string)
  : option (list string) :=
  match st, s with
  | InLiteral, EmptyString => Some (emit_literal cur)
  | InLiteral, String a EmptyString => Some [cur +:+ String a EmptyString]
  | InLiteral, String a (String d rest as s') =>
      match (if bool_decide (a = "{"%char) then closer d else None) with
      | Some c =>
          (emit_literal cur ++.) <$>
            lex (InSpan c) (String a (String d EmptyString)) rest
      | None => lex InLiteral (cur +:+ String a EmptyString) s'
      end
  | InSpan c, EmptyString => None
  | InSpan c, String a EmptyString => None
  | InSpan c, String a (String b rest as s') =>
      if bool_decide (a = c) && bool_decide (b = "}"%char)
      then ((cur +:+ String a (String b EmptyString)) ::.) <$>
             lex InLiteral EmptyString rest
      else lex (InSpan c) (cur +:+ String a EmptyString) s'
  end.

End Tokenizer.

(** Modelled from the spec: [split_template_tokens] of the package's
    [utils] module, which is not part of the sources at hand.  Section 4.1
    of the specification: the tokens cover the whole text in source order
    with no gaps or overlaps; a span opened by [{{], [{%] or [{#] runs to
    the first matching closing delimiter after it and is one token,
    delimiters included; the text between spans is a literal token, given
    as it is; a literal run of zero length is omitted; a delimiter with no
    end is a lexical error. *)
Definition split_template_tokens (text : string) : result (list string) :=
  match Tokenizer.lex Tokenizer.InLiteral EmptyString text with
  | Some tokens => Ok tokens
  | None => Raise LexicalError
  end.

(** ** The code builder *)

(** Modelled from the spec: the [CodeBuilder] that [get_base_builder] of
    the package's [builder] module returns, which is not part of the
    sources at hand.  Section 4.4 of the specification: an ordered list
    of lines and an indentation depth; [indent] and [dedent] move the
    depth, and [dedent] below zero is a fatal error; the routine header
    fits the mode.  A line is kept with the depth it was added at.  The
    lines are the body of the routine, so the depth starts at one, and
    the last [dedent] of [compile] brings it back to the header's zero.
    The routine's result list and its [append_result] are the builder's
    own prelude: they are the [f_result] of the frame the body runs in. *)
Record CodeBuilder : Type := mkBuilder {
  b_sync : bool;
  b_code : list (nat * string);
  b_indent_level : nat
}.

(** Modelled from the spec: [get_base_builder] of the package's builder
    module; the routine header is open, so the body starts one level
    in. *)
Definition get_base_builder (sync : bool) : CodeBuilder :=
  {| b_sync := sync; b_code := []; b_indent_level := 1 |}.

(** Modelled from the spec: [CodeBuilder.add_line] records the line at
    the current indentation. *)
Definition builder_add_line (line : string) (b : CodeBuilder) : CodeBuilder :=
  {| b_sync := b_sync b;
     b_code := b_code b ++ [(b_indent_level b, line)];
     b_indent_level := b_indent_level b |}.

(** Modelled from the spec: [CodeBuilder.indent]. *)
Definition builder_indent (b : CodeBuilder) : CodeBuilder :=
  {| b_sync := b_sync b;
     b_code := b_code b;
     b_indent_level := S (b_indent_level b) |}.

(** Modelled from the spec: [CodeBuilder.dedent]; below the outermost
    level it fails. *)
Definition builder_dedent (b : CodeBuilder) : result CodeBuilder :=
  match b_indent_level b with
  | O => Raise DedentError
  | S n => Ok {| b_sync := b_sync b; b_code := b_code b; b_indent_level := n |}
  end.

(** ** The compiled routine *)

(** What [get_render_function().__code__] gives: the body that the
    builder holds, for a routine of the builder's mode. *)
Record Code : Type := mkCode {
  co_sync : bool;
  co_lines : list (nat * string)
}.

(** ** [TemplateCore]: the instance and its methods *)

(** The attributes of an instance.  [_builder] does not exist before the
    first [compile]; [_render_code] and [_arender_code] are the slots
    that [cached_property] fills in the instance dictionary. *)
Record TemplateCore : Type := mkCore {
  text : string;
  _buffer : list string;
  _ops_stack : list string;
  _builder : option CodeBuilder;
  cached_render_code : option Code;
  cached_arender_code : option Code
}.

(** [TemplateCore.__init__]. *)
Definition TemplateCore_init (t : string) : TemplateCore :=
  {| text := t; _buffer := []; _ops_stack := []; _builder := None;
     cached_render_code := None; cached_arender_code := None |}.

Definition set_text (t : string) (self : TemplateCore) : TemplateCore :=
  {| text := t; _buffer := _buffer self; _ops_stack := _ops_stack self;
     _builder := _builder self;
     cached_render_code := cached_render_code self;
     cached_arender_code := cached_arender_code self |}.

Definition set_buffer (l : list string) (self : TemplateCore) : TemplateCore :=
  {| text := text self; _buffer := l; _ops_stack := _ops_stack self;
     _builder := _builder self;
     cached_render_code := cached_render_code self;
     cached_arender_code := cached_arender_code self |}.

Definition set_ops_stack (l : list string) (self : TemplateCore) : TemplateCore :=
  {| text := text self; _buffer := _buffer self; _ops_stack := l;
     _builder := _builder self;
     cached_render_code := cached_render_code self;
     cached_arender_code := cached_arender_code self |}.

Definition set_builder (b : CodeBuilder) (self : TemplateCore) : TemplateCore :=
  {| text := text self; _buffer := _buffer self; _ops_stack := _ops_stack self;
     _builder := Some b;
     cached_render_code := cached_render_code self;
     cached_arender_code := cached_arender_code self |}.

Definition set_render_code (c : Code) (self : TemplateCore) : TemplateCore :=
  {| text := text self; _buffer := _buffer self; _ops_stack := _ops_stack self;
     _builder := _builder self;
     cached_render_code := Some c;
     cached_arender_code := cached_arender_code self |}.

Definition set_arender_code (c : Code) (self : TemplateCore) : TemplateCore :=
  {| text := text self; _buffer := _buffer self; _ops_stack := _ops_stack self;
     _builder := _builder self;
     cached_render_code := cached_render_code self;
     cached_arender_code := Some c |}.

(** A method of the instance: it returns or raises, and leaves the
    instance as it is at that point.  An exception does not undo the
    assignments made before it. *)
Definition Method (A : Type) : Type := TemplateCore → result A * TemplateCore.

Definition ret {A} (a : A) : Method A := λ self, (Ok a, self).
Definition raise {A} (e : exn) : Method A := λ self, (Raise e, self).
Definition bind {A B} (k : A → Method B) (m : Method A) : Method B :=
  λ self,
    match m self with
    | (Ok a, self') => k a self'
    | (Raise e, self') => (Raise e, self')
    end.
Definition gets {A} (f : TemplateCore → A) : Method A := λ self, (Ok (f self), self).
Definition modify (f : TemplateCore → TemplateCore) : Method unit :=
  λ self, (Ok tt, f self).
Definition lift {A} (r : result A) : Method A := λ self, (r, self).

#[global] Instance Method_ret : MRet Method := @ret.
#[global] Instance Method_bind : MBind Method := @bind.

(** [for x in l: body(x)]. *)
Fixpoint for_each {A} (body : A → Method unit) (l : list A) : Method unit :=
  match l with
  | [] => ret tt
  | x :: l' => body x ;; for_each body l'
  end.

(** The builder's methods, on [self._builder]: the attribute is read,
    and the builder is changed in place. *)
Definition the_builder : Method CodeBuilder :=
  b ← gets _builder;
  match b with
  | Some b => ret b
  | None => raise AttributeError
  end.

Definition on_builder (f : CodeBuilder → result CodeBuilder) : Method unit :=
  λ self,
    match _builder self with
    | Some b =>
        match f b with
        | Ok b' => (Ok tt, set_builder b' self)
        | Raise e => (Raise e, self)
        end
    | None => (Raise AttributeError, self)
    end.

Definition add_line (line : string) : Method unit :=
  on_builder (λ b, Ok (builder_add_line line b)).

Definition indent : Method unit :=
  on_builder (λ b, Ok (builder_indent b)).

Definition dedent : Method unit :=
  on_builder builder_dedent.

(** [list.append] and [list.pop] work at the end of the list. *)
Definition list_pop {A} (l : list A) : option (A * list A) :=
  match reverse l with
  | [] => None
  | x :: r => Some (x, reverse r)
  end.

(** [TemplateCore._flush]. *)
Definition _flush : Method unit :=
  buffer ← gets _buffer;
  for_each add_line buffer ;;
  modify (set_buffer []).

Definition buffer_append (line : string) : Method unit :=
  modify (λ self, set_buffer (_buffer self ++ [line]) self).

(** [TemplateCore._on_literal_token]. *)
Definition _on_literal_token (token : string) : Method unit :=
  buffer_append ("append_result(" +:+ PyStr.repr token +:+ ")").

(** [TemplateCore._on_eval_token]. *)
Definition _on_eval_token (token : string) : Method unit :=
  let exp := _unwrap_token token in
  buffer_append ("append_result(" +:+ exp +:+ ")").

(** [TemplateCore._on_exec_token]. *)
Definition _on_exec_token (token : string) : Method unit :=
  let exp := _unwrap_token token in
  buffer_append exp.

(** [TemplateCore._make_context]. *)
Definition _make_context (text : string) : string :=
  if PyStr.has_space text
  then "dict(" +:+ PyStr.after_space text +:+ ")"
  else "locals()".

(** [TemplateCore._on_special_token]. *)
Definition _on_special_token (token : string) (sync : bool) : Method unit :=
  let inner := _unwrap_token token in
  if PyStr.startswith "end" inner then
    stack ← gets _ops_stack;
    match list_pop stack with
    | None => raise IndexError
    | Some (last, rest) =>
        modify (set_ops_stack rest) ;;
        if decide (last = PyStr.removeprefix "end" inner)
        then _flush ;; dedent
        else raise AssertionError
    end
  else
    let op := PyStr.before_space inner in
    if bool_decide (op = "if") || bool_decide (op = "for")
       || bool_decide (op = "while") then
      modify (λ self, set_ops_stack (_ops_stack self ++ [op]) self) ;;
      _flush ;;
      add_line (inner +:+ ":") ;;
      indent
    else if bool_decide (op = "else") || bool_decide (op = "elif") then
      _flush ;;
      dedent ;;
      add_line (inner +:+ ":") ;;
      indent
    else
      let params := _make_context inner in
      if sync
      then buffer_append
             ("append_result(" +:+ op +:+ ".render(" +:+ params +:+ "))")
      else buffer_append
             ("append_result(await " +:+ op +:+ ".arender(" +:+ params +:+ "))").

(** The body of the loop of [compile]. *)
Definition on_token (sync : bool) (token : string) : Method unit :=
  let s_token := PyStr.strip token in
  if PyStr.startswith "{{" s_token then _on_eval_token token
  else if PyStr.startswith "{#" s_token then _on_exec_token token
  else if PyStr.startswith "{%" s_token then _on_special_token token sync
  else _on_literal_token token.

Definition return_line : string := "return ''.join(map(str, result))".

(** [TemplateCore.compile]. *)
Definition compile (sync : bool) : Method unit :=
  modify (set_builder (get_base_builder sync)) ;;
  t ← gets text;
  tokens ← lift (split_template_tokens t);
  for_each (on_token sync) tokens ;;
  stack ← gets _ops_stack;
  match stack with
  | _ :: _ => raise (SyntaxError stack)
  | [] =>
      _flush ;;
      add_line return_line ;;
      dedent
  end.


(** ** The values and the environment of a render *)

(** The objects the model tells apart.  [VResult] is the routine's own
    result list and [VAppend] its bound [append]; [VBuiltin] is a builtin
    such as [dict], [map] or [str]; a component is known by a number, and
    so is any other object. *)
#[warnings="-register-all"]
Inductive value : Type :=
| VNone
| VBool (b : bool)
| VInt (n : Z)
| VStr (s : string)
| VList (xs : list value)
| VBuiltin (name : string)
| VResult
| VAppend
| VComponent (c : nat)
| VObject (o : nat).

(** [collections.ChainMap]: an ordered list of mappings.  A read gives
    the first mapping's value that has the key; a write and a deletion
    act on the first mapping alone. *)
Record ChainMap : Type := mkChain { maps : list (gmap string value) }.

(** [ChainMap] of the given mappings: [self.maps = list(maps) or [{}]]. *)
Definition ChainMap_new (ms : list (gmap string value)) : ChainMap :=
  match ms with
  | [] => {| maps := [∅] |}
  | _ :: _ => {| maps := ms |}
  end.

Fixpoint lookup_layers (ms : list (gmap string value)) (key : string)
  : option value :=
  match ms with
  | [] => None
  | m :: ms' =>
      match m !! key with
      | Some v => Some v
      | None => lookup_layers ms' key
      end
  end.

(** [ChainMap.__getitem__]; [None] is the [KeyError]. *)
Definition chain_getitem (cm : ChainMap) (key : string) : option value :=
  lookup_layers (maps cm) key.

(** [ChainMap.__setitem__]: [self.maps[0][key] = value]. *)
Definition chain_setitem (key : string) (v : value) (cm : ChainMap) : ChainMap :=
  match maps cm with
  | m :: ms => {| maps := <[key := v]> m :: ms |}
  | [] => cm
  end.

(** [ChainMap.__delitem__]: [del self.maps[0][key]]; [None] is the
    [KeyError]. *)
Definition chain_delitem (key : string) (cm : ChainMap) : option ChainMap :=
  match maps cm with
  | m :: ms =>
      match m !! key with
      | Some _ => Some {| maps := delete key m :: ms |}
      | None => None
      end
  | [] => None
  end.

(** [SafeChainMapContext(ChainMap, dict)] adds nothing to [ChainMap]
    when the program runs. *)
Definition SafeChainMapContext (ms : list (gmap string value)) : ChainMap :=
  ChainMap_new ms.

(** The frame the routine runs in: the globals it was evaluated with,
    the local names, and the contents of the result list. *)
Record Frame : Type := mkFrame {
  f_globals : ChainMap;
  f_locals : gmap string value;
  f_result : list value
}.

(** What the program takes from outside this module: the baseline
    bindings of [get_clean_global_builtins] (package [utils], not part of
    the sources at hand), the components that the environment may bind,
    and the meaning of the Python text that the model does not read
    itself. *)
(** How a statement ends: the next statement runs in the frame [fr], or
    the routine returns [v]. *)
Inductive completion : Type :=
| Next (fr : Frame)
| Return (v : value).

Record Host : Type := mkHost {
  get_clean_global_builtins : gmap string value;
  component_render : nat → gmap string value → option string;
  component_arender : nat → gmap string value → option string;
  object_str : value → string;
  object_truth : value → bool;
  opaque_eval : string → Frame → option (value * Frame);
  opaque_exec : string → Frame → option completion;
  opaque_for : string → Frame → option (list (gmap string value) * Frame)
}.

(** ** The Python constructs of the routine *)

Module Py.

(** [str(v)]. *)
Definition str (h : Host) (v : value) : string :=
  match v with
  | VStr s => s
  | VInt n => pretty n
  | VNone => "None"
  | VBool true => "True"
  | VBool false => "False"
  | _ => object_str h v
  end.

(** [bool(v)]. *)
Definition truth (h : Host) (v : value) : bool :=
  match v with
  | VNone => false
  | VBool b => b
  | VInt n => negb (n =? 0)%Z
  | VStr s => negb (PyStr.is_empty s)
  | VList xs => match xs with [] => false | _ => true end
  | _ => object_truth h v
  end.

Definition is_digit (c : ascii) : bool :=
  let n := nat_of_ascii c in (48 <=? n) && (n <=? 57).

Definition is_ident_start (c : ascii) : bool :=
  let n := nat_of_ascii c in
  ((65 <=? n) && (n <=? 90)) || ((97 <=? n) && (n <=? 122)) || (n =? 95).

Fixpoint all_chars (p : ascii → bool) (s : string) : bool :=
  match s with
  | EmptyString => true
  | String c s' => p c && all_chars p s'
  end.

Definition keywords : list string :=
  ["False"; "None"; "True"; "and"; "as"; "assert"; "async"; "await";
   "break"; "class"; "continue"; "def"; "del"; "elif"; "else"; "except";
   "finally"; "for"; "from"; "global"; "if"; "import"; "in"; "is";
   "lambda"; "nonlocal"; "not"; "or"; "pass"; "raise"; "return"; "try";
   "while"; "with"; "yield"].

(** A name: an identifier that is no keyword. *)
Definition is_identifier (s : string) : bool :=
  match s with
  | EmptyString => false
  | String c s' =>
      is_ident_start c
      && all_chars (λ a, is_ident_start a || is_digit a) s'
      && negb (bool_decide (s ∈ keywords))
  end.

(** A decimal integer literal with no leading zero. *)
Definition read_int (s : string) : option Z :=
  match s with
  | EmptyString => None
  | String c s' =>
      if all_chars is_digit s
         && (negb (bool_decide (c = "0"%char)) || PyStr.is_empty s')
      then Some (fold_left
                   (λ acc a, (10 * acc + Z.of_nat (nat_of_ascii a - 48))%Z)
                   (list_ascii_of_string s) 0%Z)
      else None
  end.

(** The expressions the model reads itself: a string literal, an integer
    literal, [None], [True], [False], a name, and the invocation of a
    component that [_on_special_token] writes with keyword arguments,
    [op.render(dict(k=a, ...))] or [await op.arender(dict(k=a, ...))],
    where each [a] is one of the former.  Any other text is [EOpaque]. *)
Inductive atom : Type :=
| AStr (s : string)
| AInt (n : Z)
| AConst (v : value)
| AName (x : string).

Inductive expr : Type :=
| EAtom (a : atom)
| ERender (aw : bool) (op : string) (kw : list (string * atom))
| EOpaque.

Definition parse_atom (e : string) : option atom :=
  match PyStr.read_literal e with
  | Some s => Some (AStr s)
  | None =>
      match read_int e with
      | Some n => Some (AInt n)
      | None =>
          if bool_decide (e = "None") then Some (AConst VNone)
          else if bool_decide (e = "True") then Some (AConst (VBool true))
          else if bool_decide (e = "False") then Some (AConst (VBool false))
          else if is_identifier e then Some (AName e)
          else None
      end
  end.

Definition parse_kwarg (piece : string) : option (string * atom) :=
  let name := PyStr.strip (PyStr.before_char "=" piece) in
  if PyStr.contains_char "=" piece && is_identifier name
  then (λ a, (name, a)) <$> parse_atom (PyStr.strip (PyStr.after_char "=" piece))
  else None.

Definition parse_kwargs (kw : string) : option (list (string * atom)) :=
  l ← mapM parse_kwarg (PyStr.split_on "," kw);
  if bool_decide (NoDup (l.*1)) then Some l else None.

Definition parse_render (aw : bool) (e : string) : option expr :=
  let op := PyStr.before_char "." e in
  let rest := PyStr.after_char "." e in
  let pre := if aw then "arender(dict(" else "render(dict(" in
  if PyStr.contains_char "." e && is_identifier op
     && PyStr.startswith pre rest
     && PyStr.ends_with_char ")" rest
     && PyStr.ends_with_char ")" (PyStr.drop_last rest)
  then ERender aw op <$>
         parse_kwargs
           (PyStr.drop_last
              (PyStr.drop_last (PyStr.drop (String.length pre) rest)))
  else None.

Definition parse_expr (e : string) : expr :=
  match parse_atom e with
  | Some a => EAtom a
  | None =>
      match (if PyStr.startswith "await " e
             then parse_render true (PyStr.drop 6 e)
             else parse_render false e) with
      | Some x => x
      | None => EOpaque
      end
  end.

(** The builtins that the routine's text names. *)
Definition builtin (name : string) : option value :=
  if bool_decide (name ∈ ["dict"; "map"; "str"]) then Some (VBuiltin name)
  else None.

(** The value of a name: the local names, then the globals the routine
    was evaluated with, then the builtins. *)
Definition load_name (x : string) (fr : Frame) : option value :=
  match f_locals fr !! x with
  | Some v => Some v
  | None =>
      match chain_getitem (f_globals fr) x with
      | Some v => Some v
      | None => builtin x
      end
  end.

Definition eval_atom (a : atom) (fr : Frame) : option value :=
  match a with
  | AStr s => Some (VStr s)
  | AInt n => Some (VInt n)
  | AConst v => Some v
  | AName x => load_name x fr
  end.

Definition eval_kwarg (fr : Frame) (ka : string * atom) : option (string * value) :=
  (λ v, (ka.1, v)) <$> eval_atom ka.2 fr.

(** The value of the expression text [e], and the frame after it.
    [None] is an exception. *)
Definition eval_expr (h : Host) (e : string) (fr : Frame)
  : option (value * Frame) :=
  match parse_expr e with
  | EAtom a => (λ v, (v, fr)) <$> eval_atom a fr
  | ERender aw op kw =>
      match load_name op fr, load_name "dict" fr with
      | Some (VComponent c), Some (VBuiltin "dict") =>
          args ← mapM (eval_kwarg fr) kw;
          s ← (if aw then component_arender h else component_render h)
                c (list_to_map args);
          Some (VStr s, fr)
      | Some _, Some _ => opaque_eval h e fr
      | _, _ => None
      end
  | EOpaque => opaque_eval h e fr
  end.

(** The lines of the routine, as Python reads them: the line that
    [compile] ends the routine with, a call of [append_result], the
    header of a block, or any other statement. *)
Inductive line_form : Type :=
| LReturn
| LAppend (e : string)
| LHeader (hd : string)
| LOther.

Definition classify (t : string) : line_form :=
  if bool_decide (t = return_line) then LReturn
  else if PyStr.startswith "append_result(" t && PyStr.ends_with_char ")" t
  then LAppend (PyStr.drop_last (PyStr.drop 14 t))
  else if PyStr.ends_with_char ":" t then LHeader (PyStr.drop_last t)
  else LOther.

Inductive header : Type :=
| HIf (c : string)
| HElif (c : string)
| HElse
| HWhile (c : string)
| HFor
| HUnknown.

Definition parse_header (hd : string) : header :=
  let op := PyStr.before_space hd in
  let rest := PyStr.after_space hd in
  if bool_decide (hd = "else") then HElse
  else if negb (PyStr.has_space hd) then HUnknown
  else if bool_decide (op = "if") then HIf rest
  else if bool_decide (op = "elif") then HElif rest
  else if bool_decide (op = "while") then HWhile rest
  else if bool_decide (op = "for") then HFor
  else HUnknown.

(** The lines of the block that a header at depth [lvl] opens, and the
    lines after that block. *)
Fixpoint block_body (lvl : nat) (ls : list (nat * string)) : list (nat * string) :=
  match ls with
  | (l, t) :: ls' => if lvl <? l then (l, t) :: block_body lvl ls' else []
  | [] => []
  end.

Fixpoint block_rest (lvl : nat) (ls : list (nat * string)) : list (nat * string) :=
  match ls with
  | (l, t) :: ls' => if lvl <? l then block_rest lvl ls' else ls
  | [] => []
  end.

(** The bindings of the loop variable, one mapping for each turn of
    [for x in e], where [hd] is the header.  The model reads a loop over
    a list with one name as its target; the host reads the others. *)
Definition for_items (h : Host) (hd : string) (fr : Frame)
  : option (list (gmap string value) * Frame) :=
  let rest := PyStr.after_space hd in
  let x := PyStr.before_space rest in
  let tail := PyStr.after_space rest in
  if is_identifier x && PyStr.startswith "in " tail then
    match eval_expr h (PyStr.drop 3 tail) fr with
    | Some (VList xs, fr') => Some ((λ v, {[ x := v ]}) <$> xs, fr')
    | Some _ => opaque_for h hd fr
    | None => None
    end
  else opaque_for h hd fr.

Definition bind_locals (b : gmap string value) (fr : Frame) : Frame :=
  {| f_globals := f_globals fr; f_locals := b ∪ f_locals fr;
     f_result := f_result fr |}.

Definition push_result (v : value) (fr : Frame) : Frame :=
  {| f_globals := f_globals fr; f_locals := f_locals fr;
     f_result := f_result fr ++ [v] |}.

(** Where the statement before the current one leaves an [if] chain or
    a loop: an [elif] or [else] may follow a chain, an [else] a loop. *)
Inductive chain : Type :=
| NoChain
| Taken
| NotTaken
| AfterLoop.

Inductive outcome : Type :=
| Normal (fr : Frame)
| Returned (v : value)
| Failed
| OutOfFuel.

(** One statement that is no header, in the frame [fr].  The line that
    ends the routine joins the result list when [result], [map] and
    [str] are what the builder and Python bound them to; a call of
    [append_result] appends the value of its argument when the name is
    still the result list's [append]; the host reads the statement
    otherwise.  [None] is an exception. *)
Definition simple_step (h : Host) (t : string) (fr : Frame) : option completion :=
  match classify t with
  | LReturn =>
      match load_name "result" fr, load_name "map" fr, load_name "str" fr with
      | Some VResult, Some (VBuiltin "map"), Some (VBuiltin "str") =>
          Some (Return (VStr (PyStr.join (str h <$> f_result fr))))
      | Some _, Some _, Some _ => opaque_exec h t fr
      | _, _, _ => None
      end
  | LAppend e =>
      match load_name "append_result" fr with
      | Some VAppend =>
          match eval_expr h e fr with
          | Some (v, fr') => Some (Next (push_result v fr'))
          | None => None
          end
      | Some _ => opaque_exec h t fr
      | None => None
      end
  | _ => opaque_exec h t fr
  end.

Definition is_header (t : string) : bool :=
  match classify t with
  | LHeader _ => true
  | _ => false
  end.

(** [o], and then [k] when [o] ends normally. *)
Definition and_then (o : outcome) (k : Frame → outcome) : outcome :=
  match o with
  | Normal fr => k fr
  | _ => o
  end.

(** The turns of a [for] loop: [body] with the loop variable bound by
    each of [items] in order, and [after] once they are used up. *)
Fixpoint for_loop (body after : Frame → outcome)
    (items : list (gmap string value)) (fr : Frame) : outcome :=
  match items with
  | [] => after fr
  | b :: items' => and_then (body (bind_locals b fr)) (for_loop body after items')
  end.

(** The compound statement with the header [hd]: [body] runs its block,
    [continue] what follows the statement, [again] the statement itself
    once more. *)
Definition exec_header (h : Host) (hd : string) (st : chain) (fr : Frame)
    (body : Frame → outcome) (continue : chain → Frame → outcome)
    (again : Frame → outcome) : outcome :=
  let branch c :=
    match eval_expr h c fr with
    | Some (v, fr') =>
        if truth h v then and_then (body fr') (continue Taken)
        else continue NotTaken fr'
    | None => Failed
    end in
  match parse_header hd, st with
  | HIf c, _ => branch c
  | HElif c, NotTaken => branch c
  | HElif c, Taken => continue Taken fr
  | HElse, Taken => continue NoChain fr
  | HElse, (NotTaken | AfterLoop) => and_then (body fr) (continue NoChain)
  | HWhile c, _ =>
      match eval_expr h c fr with
      | Some (v, fr') =>
          if truth h v then and_then (body fr') again
          else continue AfterLoop fr'
      | None => Failed
      end
  | HFor, _ =>
      match for_items h hd fr with
      | Some (items, fr') => for_loop body (continue AfterLoop) items fr'
      | None => Failed
      end
  | _, _ => Failed
  end.

(** The statements [ls] of one block at depth [lvl], run in order.  Each
    statement and each turn of a [while] loop takes one unit of
    [fuel]. *)
Fixpoint exec_block (h : Host) (fuel : nat) (lvl : nat) (st : chain)
    (ls : list (nat * string)) (fr : Frame) : outcome :=
  match fuel with
  | O => OutOfFuel
  | S n =>
      match ls with
      | [] => Normal fr
      | (l, t) :: rest =>
          if negb (l =? lvl) then Failed else
          match classify t with
          | LHeader hd =>
              match block_body lvl rest with
              | [] => Failed
              | body =>
                  exec_header h hd st fr
                    (exec_block h n (S lvl) NoChain body)
                    (λ st' fr', exec_block h n lvl st' (block_rest lvl rest) fr')
                    (exec_block h n lvl NoChain ls)
              end
          | _ =>
              match simple_step h t fr with
              | Some (Next fr') => exec_block h n lvl NoChain rest fr'
              | Some (Return v) => Returned v
              | None => Failed
              end
          end
      end
  end.

(** A statement or an [append_result] argument that starts with
    [await]. *)
Definition line_awaits (t : string) : bool :=
  PyStr.startswith "await " t
  || match classify t with
     | LAppend e => PyStr.startswith "await " e
     | _ => false
     end.

(** The names that the builder's prelude binds in the routine. *)
Definition prelude : gmap string value :=
  {[ "result" := VResult; "append_result" := VAppend ]}.

(** [eval(code, context)], the coroutine awaited when the routine is
    asynchronous: the value the routine returns, [None] of Python when
    it ends with no [return].  [Ok None] says that the routine still runs
    when the fuel is used up. *)
Definition eval_code (h : Host) (fuel : nat) (code : Code) (context : ChainMap)
  : result (option value) :=
  match exec_block h fuel 1 NoChain (co_lines code)
          {| f_globals := context; f_locals := prelude; f_result := [] |} with
  | Returned v => Ok (Some v)
  | Normal _ => Ok (Some VNone)
  | Failed => Raise EvaluationError
  | OutOfFuel => Ok None
  end.

End Py.

(** Modelled from the spec: [CodeBuilder.get_render_function] of the
    package's [builder] module, which is not part of the sources at hand.
    Section 4.4 of the specification: the accumulated body is wrapped in
    the header of the builder's mode, an ordinary routine for the direct
    mode and an asynchronous one for the other.  Python compiles the text
    at this point, and refuses an [await] in a routine that is not
    asynchronous. *)
Definition get_render_function (b : CodeBuilder) : result Code :=
  if b_sync b && existsb (λ lt, Py.line_awaits lt.2) (b_code b)
  then Raise AwaitOutsideAsync
  else Ok {| co_sync := b_sync b; co_lines := b_code b |}.

(** [TemplateCore._render_code], a [cached_property]: the value in the
    instance dictionary when there is one; else the method runs and its
    value is stored.  Nothing is stored when the method raises. *)
Definition _render_code : Method Code :=
  cached ← gets cached_render_code;
  match cached with
  | Some code => mret code
  | None =>
      compile true ;;
      b ← the_builder;
      code ← lift (get_render_function b);
      modify (set_render_code code) ;;
      mret code
  end.

(** [TemplateCore._arender_code]. *)
Definition _arender_code : Method Code :=
  cached ← gets cached_arender_code;
  match cached with
  | Some code => mret code
  | None =>
      compile false ;;
      b ← the_builder;
      code ← lift (get_render_function b);
      modify (set_arender_code code) ;;
      mret code
  end.

(** [TemplateCore.render]: [eval(self._render_code, context)]. *)
Definition TemplateCore_render (h : Host) (fuel : nat) (context : ChainMap)
  : Method (option value) :=
  code ← _render_code;
  lift (Py.eval_code h fuel code context).

(** [TemplateCore.arender]: [await eval(self._arender_code, context)]. *)
Definition TemplateCore_arender (h : Host) (fuel : nat) (context : ChainMap)
  : Method (option value) :=
  code ← _arender_code;
  lift (Py.eval_code h fuel code context).

(** ** [Template] *)

Record Template : Type := mkTemplate {
  core : TemplateCore;
  context : gmap string value
}.

(** [Template.__init__]. *)
Definition Template_init (t : string) (ctx : option (gmap string value))
  : Template :=
  {| core := TemplateCore_init t;
     context := match ctx with None => ∅ | Some c => c end |}.

(** The environment that [Template.render] and [Template.arender] build
    for one call. *)
Definition render_context (h : Host) (self : Template)
    (ctx : option (gmap string value)) : ChainMap :=
  match ctx with
  | None =>
      SafeChainMapContext [get_clean_global_builtins h; context self]
  | Some c =>
      SafeChainMapContext [get_clean_global_builtins h; c; context self]
  end.

(** [Template.render]. *)
Definition Template_render (h : Host) (fuel : nat) (self : Template)
    (ctx : option (gmap string value)) : result (option value) * Template :=
  let r := TemplateCore_render h fuel (render_context h self ctx) (core self) in
  (r.1, {| core := r.2; context := context self |}).

(** [Template.arender]. *)
Definition Template_arender (h : Host) (fuel : nat) (self : Template)
    (ctx : option (gmap string value)) : result (option value) * Template :=
  let r := TemplateCore_arender h fuel (render_context h self ctx) (core self) in
  (r.1, {| core := r.2; context := context self |}).

(** ** [Loader]: the class-level network clients *)

(** What [Loader] takes from outside the program: [httpx.Client] and
    [httpx.AsyncClient], the keyword arguments they are made from (a
    constructor raises on arguments it does not take), the text of the
    response to a [get] (or the exception of the transport),
    [Path(url).stem], and for each class the classes after it in its
    method resolution order. *)
Record World : Type := mkWorld {
  Kwargs : Type;
  Client : Type;
  AsyncClient : Type;
  new_client : Kwargs → result Client;
  new_aclient : Kwargs → result AsyncClient;
  client_get : Client → string → result string;
  aclient_get : AsyncClient → string → result string;
  path_stem : string → string;
  bases : string → list string
}.

(** The class attributes [_client] and [_aclient], by the class in
    whose dictionary they stand.  [Some None] is the [None] that the
    body of [Loader] assigns. *)
Record classes (w : World) : Type := mkClasses {
  attr_client : gmap string (option (Client w));
  attr_aclient : gmap string (option (AsyncClient w))
}.
Arguments mkClasses {w} _ _.
Arguments attr_client {w} _.
Arguments attr_aclient {w} _.

(** [cls.attr]: the first class in the resolution order that has the
    attribute; [None] is the [AttributeError]. *)
Fixpoint class_getattr {A} (d : gmap string A) (order : list string) : option A :=
  match order with
  | [] => None
  | c :: order' =>
      match d !! c with
      | Some v => Some v
      | None => class_getattr d order'
      end
  end.

Definition mro (w : World) (cls : string) : list string := cls :: bases w cls.

(** The instance that [cls(response.text)] makes, with its [name]. *)
Record loaded : Type := mkLoaded {
  l_class : string;
  l_text : string;
  l_name : string
}.

Definition make (w : World) (cls : string) (url : string) (r : result string)
  : result loaded :=
  match r with
  | Ok t => Ok {| l_class := cls; l_text := t; l_name := path_stem w url |}
  | Raise e => Raise e
  end.

(** [Loader.fetch]. *)
Definition fetch (w : World) (cls : string) (url : string) (kwargs : Kwargs w)
    (st : classes w) : result loaded * classes w :=
  match class_getattr (attr_client st) (mro w cls) with
  | None => (Raise AttributeError, st)
  | Some None =>
      match new_client w kwargs with
      | Raise e => (Raise e, st)
      | Ok c =>
          (make w cls url (client_get w c url),
           {| attr_client := <[cls := Some c]> (attr_client st);
              attr_aclient := attr_aclient st |})
      end
  | Some (Some c) => (make w cls url (client_get w c url), st)
  end.

(** [Loader.afetch]. *)
Definition afetch (w : World) (cls : string) (url : string) (kwargs : Kwargs w)
    (st : classes w) : result loaded * classes w :=
  match class_getattr (attr_aclient st) (mro w cls) with
  | None => (Raise AttributeError, st)
  | Some None =>
      match new_aclient w kwargs with
      | Raise e => (Raise e, st)
      | Ok c =>
          (make w cls url (aclient_get w c url),
           {| attr_client := attr_client st;
              attr_aclient := <[cls := Some c]> (attr_aclient st) |})
      end
  | Some (Some c) => (make w cls url (aclient_get w c url), st)
  end.

(** ** Reference definitions and concrete instances *)

(** The order of the layers as the specification words it: the caller's
    override mapping when there is one, then the template's own default
    bindings, then the baseline bindings last. *)
Definition spec_layers (h : Host) (self : Template)
    (ctx : option (gmap string value)) : list (gmap string value) :=
  match ctx with
  | None => [context self; get_clean_global_builtins h]
  | Some c => [c; context self; get_clean_global_builtins h]
  end.

(** A host with the baseline bindings [base] and one kind of component,
    whose render gives the [x] of its environment as a string.  No text
    is read by the host. *)
Definition plain_str (v : value) : string :=
  match v with
  | VStr s => s
  | VInt n => pretty n
  | VNone => "None"
  | VBool true => "True"
  | VBool false => "False"
  | _ => "<object>"
  end.

Definition x_of (ctx : gmap string value) : option string :=
  plain_str <$> ctx !! "x".

Definition plain_host (base : gmap string value) : Host :=
  {| get_clean_global_builtins := base;
     component_render := λ _ ctx, x_of ctx;
     component_arender := λ _ ctx, x_of ctx;
     object_str := λ _, "<object>";
     object_truth := λ _, true;
     opaque_eval := λ _ _, None;
     opaque_exec := λ _ _, None;
     opaque_for := λ _ _, None |}.

(** A world for examples: the keyword arguments are one number, which
    the client keeps; the constructors take every number but zero; a
    [get] answers with the address itself.  [Template] comes before
    [Loader] in its resolution order. *)
Definition number_world : World :=
  {| Kwargs := nat;
     Client := nat;
     AsyncClient := nat;
     new_client := λ n, match n with O => Raise ExternalError | S _ => Ok n end;
     new_aclient := λ n, match n with O => Raise ExternalError | S _ => Ok n end;
     client_get := λ _ url, Ok url;
     aclient_get := λ _ url, Ok url;
     path_stem := λ url, url;
     bases := λ cls,
       if bool_decide (cls = "Template")
       then ["TemplateCore"; "Loader"; "AutoNaming"]
       else if bool_decide (cls = "Loader") then ["AutoNaming"] else [] |}.

(** The class attributes when the module has been loaded: the body of
    [Loader] has assigned [None] to both. *)
Definition classes_init (w : World) : classes w :=
  {| attr_client := {[ "Loader" := None ]};
     attr_aclient := {[ "Loader" := None ]} |}.

(** [cls] sees a client, its own or one it inherits. *)
Definition has_client {w : World} (st : classes w) (cls : string) : Prop :=
  ∃ c, class_getattr (attr_client st) (mro w cls) = Some (Some c).

Definition has_aclient {w : World} (st : classes w) (cls : string) : Prop :=
  ∃ c, class_getattr (attr_aclient st) (mro w cls) = Some (Some c).

(** What [compile] does once the tokens are known, and what it does
    after the last token. *)
Definition compile_end : Method unit :=
  stack ← gets _ops_stack;
  match stack with
  | _ :: _ => raise (SyntaxError stack)
  | [] =>
      _flush ;;
      add_line return_line ;;
      dedent
  end.

Definition compile_tokens (sync : bool) (tokens : list string) : Method unit :=
  for_each (on_token sync) tokens ;; compile_end.

(** The token is a component invocation: a control token that neither
    closes nor opens nor continues a block. *)
Definition is_component_token (token : string) : bool :=
  let s_token := PyStr.strip token in
  let inner := _unwrap_token token in
  let op := PyStr.before_space inner in
  negb (PyStr.startswith "{{" s_token)
  && negb (PyStr.startswith "{#" s_token)
  && PyStr.startswith "{%" s_token
  && negb (PyStr.startswith "end" inner)
  && negb (bool_decide (op ∈ ["if"; "for"; "while"; "else"; "elif"])).

(** The token is an exec token. *)
Definition is_exec_token (token : string) : bool :=
  let s_token := PyStr.strip token in
  negb (PyStr.startswith "{{" s_token) && PyStr.startswith "{#" s_token.

(** The render of one mode and the slot of its routine. *)
Definition render_mode (h : Host) (fuel : nat) (sync : bool) (context : ChainMap)
  : Method (option value) :=
  if sync then TemplateCore_render h fuel context
  else TemplateCore_arender h fuel context.

Definition cached_code (sync : bool) (self : TemplateCore) : option Code :=
  if sync then cached_render_code self else cached_arender_code self.

(** Two instances in the middle of [compile] that differ in the text of
    some lines at most: [E] relates the lines. *)
Definition builder_rel (E : string → string → Prop) (b b' : CodeBuilder) : Prop :=
  b_indent_level b = b_indent_level b'
  ∧ Forall2 (λ x y, x.1 = y.1 ∧ E x.2 y.2) (b_code b) (b_code b').

Definition state_rel (E : string → string → Prop) (st st' : TemplateCore) : Prop :=
  _ops_stack st = _ops_stack st'
  ∧ Forall2 E (_buffer st) (_buffer st')
  ∧ option_Forall2 (builder_rel E) (_builder st) (_builder st').

(** Two methods that give the same result and keep the instances
    related by [R]. *)
Definition related {A} (R : TemplateCore → TemplateCore → Prop)
    (m m' : Method A) : Prop :=
  ∀ st st', R st st' → (m st).1 = (m' st').1 ∧ R (m st).2 (m' st').2.

(** Two tokens that [compile] reads alike up to [E]: the same token (in
    the same mode when it invokes a component), or two exec tokens whose
    statements [E] relates. *)
Definition token_rel (E : string → string → Prop) (sync sync' : bool)
    (tk tk' : string) : Prop :=
  (tk = tk' ∧ (sync = sync' ∨ is_component_token tk = false))
  ∨ (is_exec_token tk = true ∧ is_exec_token tk' = true
     ∧ E (_unwrap_token tk) (_unwrap_token tk')).

(** What the methods under [compile] do not assign: the text, the two
    slots, and the mode of the builder. *)
Definition same_slots (st st' : TemplateCore) : Prop :=
  text st' = text st
  ∧ cached_render_code st' = cached_render_code st
  ∧ cached_arender_code st' = cached_arender_code st
  ∧ b_sync <$> _builder st' = b_sync <$> _builder st.

Definition set_code (sync : bool) (code : Code) (self : TemplateCore)
  : TemplateCore :=
  if sync then set_render_code code self else set_arender_code code self.

Definition keeps_slots {A} (m : Method A) : Prop :=
  ∀ st, same_slots st (m st).2.

(** The assignment [template.text = t]. *)
Definition set_template_text (t : string) (self : Template) : Template :=
  {| core := set_text t (core self); context := context self |}.

(** [Template.render] or [Template.arender], by the mode. *)
Definition Template_render_mode (h : Host) (fuel : nat) (sync : bool)
    (self : Template) (ctx : option (gmap string value))
  : result (option value) * Template :=
  if sync then Template_render h fuel self ctx
  else Template_arender h fuel self ctx.


(** The block stack as section 4.3 of the specification words it: a
    control token [end<kw>] pops the stack, and it is a fatal error when
    the stack is empty or the keyword popped is not [<kw>]; a control
    token that starts with [if], [for] or [while] pushes that keyword;
    no other token touches the stack. *)
Definition is_control_token (token : string) : bool :=
  let s_token := PyStr.strip token in
  negb (PyStr.startswith "{{" s_token)
  && negb (PyStr.startswith "{#" s_token)
  && PyStr.startswith "{%" s_token.

Definition closed_by (token : string) : option string :=
  let inner := _unwrap_token token in
  if is_control_token token && PyStr.startswith "end" inner
  then Some (PyStr.removeprefix "end" inner) else None.

Definition opened_by (token : string) : option string :=
  let inner := _unwrap_token token in
  let op := PyStr.before_space inner in
  if is_control_token token && negb (PyStr.startswith "end" inner)
     && bool_decide (op ∈ ["if"; "for"; "while"])
  then Some op else None.

Fixpoint block_stack (stack : list string) (tokens : list string)
  : result (list string) :=
  match tokens with
  | [] => Ok stack
  | token :: tokens' =>
      match closed_by token with
      | Some kw =>
          match list_pop stack with
          | None => Raise IndexError
          | Some (innermost, rest) =>
              if decide (innermost = kw) then block_stack rest tokens'
              else Raise AssertionError
          end
      | None =>
          match opened_by token with
          | Some op => block_stack (stack ++ [op]) tokens'
          | None => block_stack stack tokens'
          end
      end
  end.

(** The three defects of the block structure of a template, with the
    exception that each ends [compile] with: a closer that does not match
    the innermost open block, a closer with no block open, and blocks
    left open at the end of the input. *)
Inductive block_defect (tokens : list string) : exn → Prop :=
| defect_mismatched pre token post stack rest innermost kw :
    tokens = pre ++ token :: post →
    block_stack [] pre = Ok stack →
    closed_by token = Some kw →
    list_pop stack = Some (innermost, rest) →
    innermost ≠ kw →
    block_defect tokens AssertionError
| defect_unmatched pre token post kw :
    tokens = pre ++ token :: post →
    block_stack [] pre = Ok [] →
    closed_by token = Some kw →
    block_defect tokens IndexError
| defect_unclosed stack :
    block_stack [] tokens = Ok stack →
    stack ≠ [] →
    block_defect tokens (SyntaxError stack).

(** While [compile] reads the tokens, the stack of the instance is what
    it was at the start, [s0], under the blocks [new] opened since, and
    the depth of the builder is one more than the number of those. *)
Definition block_inv (s0 new : list string) (st : TemplateCore) : Prop :=
  ∃ b, _builder st = Some b
       ∧ _ops_stack st = s0 ++ new
       ∧ b_indent_level b = S (length new).

(** The exceptions of a defect of the block structure. *)
Definition structural (e : exn) : Prop :=
  e = AssertionError ∨ e = IndexError
  ∨ ∃ stack, stack ≠ [] ∧ e = SyntaxError stack.

(** The instances that renders of either mode lead to from [self0]. *)
Inductive rendered_from (h : Host) (self0 : Template) : Template → Prop :=
| rendered_refl : rendered_from h self0 self0
| rendered_step self sync fuel ctx :
    rendered_from h self0 self →
    rendered_from h self0 (Template_render_mode h fuel sync self ctx).2.

(** The text holds an opening delimiter: [{{], [{%] or [{#]. *)
Fixpoint has_open_delim (s : string) : bool :=
  match s with
  | String a (String d _ as s') =>
      (bool_decide (a = "{"%char)
       && match Tokenizer.closer d with Some _ => true | None => false end)
      || has_open_delim s'
  | _ => false
  end.

(** The baseline layer binds the names of the builtins that the routine
    uses, if at all, to those builtins. *)
Definition clean_baseline (h : Host) : Prop :=
  ∀ n, n ∈ ["dict"; "map"; "str"] →
       get_clean_global_builtins h !! n = None
       ∨ get_clean_global_builtins h !! n = Some (VBuiltin n).

(** The environment [env] leaves the builtin [n] visible. *)
Definition sees_builtin (env : ChainMap) (n : string) : Prop :=
  chain_getitem env n = None ∨ chain_getitem env n = Some (VBuiltin n).


(** The line that [_on_literal_token] writes for a literal token. *)
Definition literal_line (token : string) : string :=
  "append_result(" +:+ PyStr.repr token +:+ ")".



(** A host that reads two statements, [pass] and [...], which both do
    nothing. *)
Definition pass_host : Host :=
  {| get_clean_global_builtins := ∅;
     component_render := λ _ ctx, x_of ctx;
     component_arender := λ _ ctx, x_of ctx;
     object_str := λ _, "<object>";
     object_truth := λ _, true;
     opaque_eval := λ _ _, None;
     opaque_exec := λ s fr,
       if bool_decide (s = "pass") || bool_decide (s = "...")
       then Some (Next fr) else None;
     opaque_for := λ _ _, None |}.

(** ** Reference definitions for the further properties *)

(** Every character of the text is a blank, or is a dash. *)
Definition blank (s : string) : bool := Py.all_chars PyStr.is_space s.
Definition dashes (s : string) : bool := Py.all_chars PyStr.is_dash s.

(** A token as the template syntax writes one: two opening characters,
    trim markers, the inner text [e] between blanks, trim markers, two
    closing characters; blanks may stand around the token. *)
Definition wrap_token (l : string) (o1 o2 : ascii) (d1 b1 e b2 d2 : string)
    (c1 c2 : ascii) (r : string) : string :=
  l +:+ String o1 (String o2
          (d1 +:+ b1 +:+ e +:+ b2 +:+ d2 +:+ String c1 (String c2 r))).

(** [TemplateCore.get_script]: [compile] and then [str(self._builder)].
    The builder's [__str__] belongs to the package's [builder] module and
    is left as the parameter [builder_str]. *)
Definition get_script (builder_str : CodeBuilder → string) (sync : bool)
  : Method string :=
  compile sync ;;
  b ← the_builder;
  mret (builder_str b).

(** A world in which the address [down] does not answer; it is
    [number_world] otherwise. *)
Definition flaky_world : World :=
  {| Kwargs := nat;
     Client := nat;
     AsyncClient := nat;
     new_client := λ n, match n with O => Raise ExternalError | S _ => Ok n end;
     new_aclient := λ n, match n with O => Raise ExternalError | S _ => Ok n end;
     client_get := λ _ url,
       if bool_decide (url = "down") then Raise ExternalError else Ok url;
     aclient_get := λ _ url,
       if bool_decide (url = "down") then Raise ExternalError else Ok url;
     path_stem := λ url, url;
     bases := λ cls,
       if bool_decide (cls = "Template")
       then ["TemplateCore"; "Loader"; "AutoNaming"]
       else if bool_decide (cls = "Loader") then ["AutoNaming"] else [] |}.

(** The tokens of a template with no block, statement or component: a
    literal token, or an eval token whose expression is one that the
    model reads itself (a string or integer literal, [None], [True],
    [False], a name). *)
Definition is_flat_token (tk : string) : bool :=
  let s_token := PyStr.strip tk in
  if PyStr.startswith "{{" s_token
  then bool_decide (is_Some (Py.parse_atom (_unwrap_token tk)))
  else negb (PyStr.startswith "{#" s_token || PyStr.startswith "{%" s_token).

(** The argument of [append_result] in the line that [compile] writes
    for such a token, and the line. *)
Definition flat_expr (tk : string) : string :=
  if PyStr.startswith "{{" (PyStr.strip tk) then _unwrap_token tk else PyStr.repr tk.

Definition flat_line (tk : string) : string :=
  "append_result(" +:+ flat_expr tk +:+ ")".


(** The frame after [vs] have been appended to the result list. *)
Definition push_results (vs : list value) (fr : Frame) : Frame :=
  {| f_globals := f_globals fr; f_locals := f_locals fr;
     f_result := f_result fr ++ vs |}.


(** * Properties *)

#[local] Arguments PyStr.startswith : simpl never.
#[local] Arguments PyStr.strip : simpl never.
#[local] Arguments _unwrap_token : simpl never.
#[local] Arguments PyStr.removeprefix : simpl never.
#[local] Arguments PyStr.before_space : simpl never.
#[local] Arguments PyStr.repr : simpl never.

(** ** String primitives *)

Lemma lstrip_with_length p s :
  String.length (PyStr.lstrip_with p s) ≤ String.length s.
Proof.
  induction s as [|c s IH]; simpl; [lia|].
  destruct (p c); simpl; lia.
Qed.

Lemma rstrip_with_length p s :
  String.length (PyStr.rstrip_with p s) ≤ String.length s.
Proof.
  induction s as [|c s IH]; simpl; [lia|].
  destruct (PyStr.is_empty (PyStr.rstrip_with p s) && p c); simpl; lia.
Qed.

Lemma strip_with_length p s :
  String.length (PyStr.strip_with p s) ≤ String.length s.
Proof.
  unfold PyStr.strip_with.
  pose proof (rstrip_with_length p (PyStr.lstrip_with p s)).
  pose proof (lstrip_with_length p s). lia.
Qed.

Lemma substring_length_le n m s :
  String.length (String.substring n m s) ≤ m.
Proof.
  revert n m. induction s as [|c s IH]; intros [|n] [|m]; simpl; try lia.
  - specialize (IH 0 m). lia.
  - apply IH.
  - apply IH.
Qed.

Lemma slice_2_m2_length s :
  String.length (PyStr.slice_2_m2 s) ≤ String.length s - 4.
Proof. apply substring_length_le. Qed.

Lemma length_0_empty s : String.length s = 0 → s = EmptyString.
Proof. by destruct s. Qed.

(** ** The token normalizer *)

Lemma unwrap_token_length token :
  String.length (_unwrap_token token) ≤ String.length token - 4.
Proof.
  unfold _unwrap_token, PyStr.strip, PyStr.strip_dash.
  pose proof (strip_with_length PyStr.is_space token).
  pose proof (slice_2_m2_length (PyStr.strip_with PyStr.is_space token)).
  pose proof (strip_with_length PyStr.is_dash
                (PyStr.slice_2_m2 (PyStr.strip_with PyStr.is_space token))).
  pose proof (strip_with_length PyStr.is_space
                (PyStr.strip_with PyStr.is_dash
                   (PyStr.slice_2_m2 (PyStr.strip_with PyStr.is_space token)))).
  lia.
Qed.

Lemma unwrap_token_shrinks s :
  s ≠ EmptyString → String.length (_unwrap_token s) < String.length s.
Proof.
  intros Hs. pose proof (unwrap_token_length s).
  destruct s as [|c s]; [done|]. simpl in *. lia.
Qed.

Example unwrap_eval_token : _unwrap_token " {{- a + 1 -}} " = "a + 1".
Proof. reflexivity. Qed.

(** C7, as stated, fails: the normal form of the token [{{ a }}] is [a],
    and the normalizer takes [a] to the empty string. *)
Lemma unwrap_token_not_idempotent :
  _unwrap_token "{{ a }}" = "a"
  ∧ _unwrap_token (_unwrap_token "{{ a }}") = EmptyString.
Proof. split; reflexivity. Qed.

(** C7, amended: the normalizer removes two characters from each end
    whatever they are, so it gives a strictly shorter string on every
    normal form that is not empty; normalizing twice is normalizing once
    exactly for the tokens whose normal form is empty. *)
Theorem unwrap_token_idempotent_iff_empty (token : string) :
  (_unwrap_token (_unwrap_token token) = _unwrap_token token
   ↔ _unwrap_token token = EmptyString)
  ∧ (_unwrap_token token = EmptyString
     ∨ String.length (_unwrap_token (_unwrap_token token))
       < String.length (_unwrap_token token)).
Proof.
  split.
  - split.
    + intros Heq. destruct (decide (_unwrap_token token = EmptyString)) as [|Hne]; [done|].
      apply unwrap_token_shrinks in Hne. rewrite Heq in Hne. lia.
    + intros ->. reflexivity.
  - destruct (decide (_unwrap_token token = EmptyString)) as [|Hne]; [by left|].
    right. by apply unwrap_token_shrinks.
Qed.

(** C9: the normalizer is a total function on strings, and a token of at
    most four characters once its outer blanks are trimmed has the empty
    normal form; so have the empty token and every token shorter than
    the four delimiter characters. *)
Theorem unwrap_token_total (token : string) :
  ∃ s, _unwrap_token token = s
       ∧ (String.length (PyStr.strip token) ≤ 4 → s = EmptyString)
       ∧ (String.length token ≤ 4 → s = EmptyString).
Proof.
  exists (_unwrap_token token). split; [done|].
  assert (String.length (PyStr.strip token) ≤ 4 →
          _unwrap_token token = EmptyString) as Hstrip.
  { intros Hlen. unfold _unwrap_token.
    pose proof (slice_2_m2_length (PyStr.strip token)) as Hs.
    rewrite (length_0_empty (PyStr.slice_2_m2 (PyStr.strip token))); [done|lia]. }
  split; [done|].
  intros Hlen. apply Hstrip.
  pose proof (strip_with_length PyStr.is_space token). unfold PyStr.strip. lia.
Qed.

Lemma unwrap_token_total_witness :
  _unwrap_token EmptyString = EmptyString
  ∧ _unwrap_token "{%%}" = EmptyString
  ∧ _unwrap_token " {{ " = EmptyString.
Proof.
  split; [|split].
  - destruct (unwrap_token_total EmptyString) as (s & <- & _ & H).
    apply H. simpl. lia.
  - destruct (unwrap_token_total "{%%}") as (s & <- & H & _).
    apply H. vm_compute. lia.
  - destruct (unwrap_token_total " {{ ") as (s & <- & H & _).
    apply H. vm_compute. lia.
Defined.

(** ** The environment of a render *)

Lemma lookup_layers_cons m ms key :
  lookup_layers (m :: ms) key
  = match m !! key with Some v => Some v | None => lookup_layers ms key end.
Proof. reflexivity. Qed.

(** C1, as stated, fails: with the baseline binding [a] to 9, the
    caller's override binding it to 4 and the template's defaults to 2,
    the environment of the call gives 9 for [a] where the order of the
    specification gives 4, the template [{{ a }}] renders to 9, and a
    write of [b] lands in the baseline layer and leaves the caller's
    mapping as it is. *)
Lemma render_context_front_is_baseline :
  let h := plain_host {[ "a" := VInt 9 ]} in
  let self := Template_init "{{ a }}" (Some {[ "a" := VInt 2 ]}) in
  let ctx := Some ({[ "a" := VInt 4 ]} : gmap string value) in
  let env := render_context h self ctx in
  chain_getitem env "a" = Some (VInt 9)
  ∧ lookup_layers (spec_layers h self ctx) "a" = Some (VInt 4)
  ∧ (Template_render h 3 self ctx).1 = Ok (Some (VStr "9"))
  ∧ maps (chain_setitem "b" VNone env)
    = [ {[ "a" := VInt 9; "b" := VNone ]}; {[ "a" := VInt 4 ]}; {[ "a" := VInt 2 ]} ].
Proof. vm_compute. done. Qed.

(** C1, amended: for every render call the layers of the environment
    are, front to back, the baseline bindings, then the caller's
    override mapping (left out when the caller passes none), then the
    template's own default bindings; a read takes the first layer, in
    that order, that has the name; a write through the environment
    changes the front layer, the baseline one, and no other; and this is
    the environment that both modes run the routine in. *)
Theorem render_context_layers (h : Host) (self : Template)
    (ctx : option (gmap string value)) :
  let env := render_context h self ctx in
  let override := match ctx with Some c => [c] | None => [] end in
  maps env = get_clean_global_builtins h :: override ++ [context self]
  ∧ (∀ key,
       chain_getitem env key
       = match get_clean_global_builtins h !! key with
         | Some v => Some v
         | None =>
             match ctx ≫= (λ c, c !! key) with
             | Some v => Some v
             | None => context self !! key
             end
         end)
  ∧ (∀ key v,
       maps (chain_setitem key v env)
       = <[key := v]> (get_clean_global_builtins h) :: override ++ [context self])
  ∧ (∀ fuel,
       (Template_render h fuel self ctx).1
       = (TemplateCore_render h fuel env (core self)).1
       ∧ (Template_arender h fuel self ctx).1
         = (TemplateCore_arender h fuel env (core self)).1).
Proof.
  destruct ctx as [c|]; simpl.
  - repeat split.
    intros key. unfold chain_getitem. simpl.
    destruct (get_clean_global_builtins h !! key); [done|].
    by destruct (c !! key), (context self !! key).
  - repeat split.
    intros key. unfold chain_getitem. simpl.
    destruct (get_clean_global_builtins h !! key); [done|].
    by destruct (context self !! key).
Qed.

(** ** [Loader.fetch] and [Loader.afetch] *)

Section LoaderFacts.
Context (w : World).
Implicit Types (st : classes w) (cls url : string).

Lemma class_getattr_insert_client {A} (d : gmap string (option A)) cls c order c0 :
  class_getattr d order = Some (Some c0) →
  ∃ c1, class_getattr (<[cls := Some c]> d) order = Some (Some c1).
Proof.
  induction order as [|k order IH]; simpl; [done|].
  destruct (decide (cls = k)) as [->|Hne].
  - rewrite lookup_insert_eq. eauto.
  - rewrite lookup_insert_ne by done.
    destruct (d !! k) as [v|]; [|done].
    intros [= ->]. eauto.
Qed.

Lemma fetch_found st cls url kw c :
  class_getattr (attr_client st) (mro w cls) = Some (Some c) →
  fetch w cls url kw st = (make w cls url (client_get w c url), st).
Proof. intros H. unfold fetch. by rewrite H. Qed.

Lemma afetch_found st cls url kw c :
  class_getattr (attr_aclient st) (mro w cls) = Some (Some c) →
  afetch w cls url kw st = (make w cls url (aclient_get w c url), st).
Proof. intros H. unfold afetch. by rewrite H. Qed.

Lemma fetch_frame st cls url kw :
  attr_aclient (fetch w cls url kw st).2 = attr_aclient st
  ∧ ∀ k, k ≠ cls → attr_client (fetch w cls url kw st).2 !! k = attr_client st !! k.
Proof.
  unfold fetch.
  destruct (class_getattr (attr_client st) (mro w cls)) as [[c|]|]; simpl; [done| |done].
  destruct (new_client w kw); simpl; [|done].
  split; [done|]. intros k Hk. by rewrite lookup_insert_ne.
Qed.

Lemma afetch_frame st cls url kw :
  attr_client (afetch w cls url kw st).2 = attr_client st
  ∧ ∀ k, k ≠ cls → attr_aclient (afetch w cls url kw st).2 !! k = attr_aclient st !! k.
Proof.
  unfold afetch.
  destruct (class_getattr (attr_aclient st) (mro w cls)) as [[c|]|]; simpl; [done| |done].
  destruct (new_aclient w kw); simpl; [|done].
  split; [done|]. intros k Hk. by rewrite lookup_insert_ne.
Qed.

Lemma fetch_keeps_client st cls url kw k :
  has_client st k → has_client (fetch w cls url kw st).2 k.
Proof.
  intros [c0 H0]. unfold fetch, has_client.
  destruct (class_getattr (attr_client st) (mro w cls)) as [[c|]|];
    cbn [snd attr_client]; eauto.
  destruct (new_client w kw); cbn [snd attr_client]; eauto.
  by eapply class_getattr_insert_client.
Qed.

Lemma afetch_keeps_aclient st cls url kw k :
  has_aclient st k → has_aclient (afetch w cls url kw st).2 k.
Proof.
  intros [c0 H0]. unfold afetch, has_aclient.
  destruct (class_getattr (attr_aclient st) (mro w cls)) as [[c|]|];
    cbn [snd attr_aclient]; eauto.
  destruct (new_aclient w kw); cbn [snd attr_aclient]; eauto.
  by eapply class_getattr_insert_client.
Qed.

(** A call that returns has made the client or found it. *)
Lemma fetch_makes_client st cls url kw o :
  (fetch w cls url kw st).1 = Ok o → has_client (fetch w cls url kw st).2 cls.
Proof.
  unfold fetch, has_client.
  destruct (class_getattr (attr_client st) (mro w cls)) as [[c|]|] eqn:E; simpl;
    [eauto| |done].
  destruct (new_client w kw) as [c|]; simpl; [|done].
  intros _. exists c. by rewrite lookup_insert_eq.
Qed.

Lemma afetch_makes_aclient st cls url kw o :
  (afetch w cls url kw st).1 = Ok o → has_aclient (afetch w cls url kw st).2 cls.
Proof.
  unfold afetch, has_aclient.
  destruct (class_getattr (attr_aclient st) (mro w cls)) as [[c|]|] eqn:E; simpl;
    [eauto| |done].
  destruct (new_aclient w kw) as [c|]; simpl; [|done].
  intros _. exists c. by rewrite lookup_insert_eq.
Qed.

End LoaderFacts.

(** C10, as stated, fails: when the constructor of the client raises on
    the keyword arguments of the first call, that call leaves the field
    at [None]; the second call then sets the field, and its keyword
    arguments are the ones the client is made from.  Only the calls after
    that one leave the field alone. *)
Lemma fetch_second_call_configures :
  let w := number_world in
  let st1 := (fetch w "Loader" "u" 0 (classes_init w)).2 in
  let st2 := (fetch w "Loader" "u" 5 st1).2 in
  let st3 := (fetch w "Loader" "u" 9 st2).2 in
  (fetch w "Loader" "u" 0 (classes_init w)).1 = Raise ExternalError
  ∧ attr_client st1 !! "Loader" = Some None
  ∧ attr_client st2 !! "Loader" = Some (Some 5)
  ∧ attr_client st3 !! "Loader" = Some (Some 5).
Proof. vm_compute. done. Qed.

(** C10, amended: on every [fetch] (and [afetch]) call for a class that
    sees a client, the class attributes are left as they are and the
    keyword arguments of the call are ignored; a class sees a client
    after any call for it that returned, and from then on whatever calls
    follow, so the keyword arguments that configure a client are those
    of the call that made it; and no call changes the attribute of the
    other mode or the attributes of the other classes. *)
Theorem fetch_reuses_client (w : World) (st : classes w) (cls url : string)
    (kw : Kwargs w) :
  (has_client st cls →
     (fetch w cls url kw st).2 = st
     ∧ ∀ kw', fetch w cls url kw' st = fetch w cls url kw st)
  ∧ (has_aclient st cls →
     (afetch w cls url kw st).2 = st
     ∧ ∀ kw', afetch w cls url kw' st = afetch w cls url kw st)
  ∧ (∀ o, (fetch w cls url kw st).1 = Ok o →
          has_client (fetch w cls url kw st).2 cls)
  ∧ (∀ o, (afetch w cls url kw st).1 = Ok o →
          has_aclient (afetch w cls url kw st).2 cls)
  ∧ (∀ k, has_client st k →
          has_client (fetch w cls url kw st).2 k
          ∧ has_client (afetch w cls url kw st).2 k)
  ∧ (∀ k, has_aclient st k →
          has_aclient (afetch w cls url kw st).2 k
          ∧ has_aclient (fetch w cls url kw st).2 k)
  ∧ attr_aclient (fetch w cls url kw st).2 = attr_aclient st
  ∧ attr_client (afetch w cls url kw st).2 = attr_client st
  ∧ (∀ k, k ≠ cls →
          attr_client (fetch w cls url kw st).2 !! k = attr_client st !! k
          ∧ attr_aclient (afetch w cls url kw st).2 !! k = attr_aclient st !! k).
Proof.
  split_and!.
  - intros [c Hc]. split; [by rewrite (fetch_found w st cls url kw c)|].
    intros kw'. by rewrite !(fetch_found w st cls url _ c).
  - intros [c Hc]. split; [by rewrite (afetch_found w st cls url kw c)|].
    intros kw'. by rewrite !(afetch_found w st cls url _ c).
  - apply fetch_makes_client.
  - apply afetch_makes_aclient.
  - intros k Hk. split; [by apply fetch_keeps_client|].
    unfold has_client. by rewrite (proj1 (afetch_frame w st cls url kw)).
  - intros k Hk. split; [by apply afetch_keeps_aclient|].
    unfold has_aclient. by rewrite (proj1 (fetch_frame w st cls url kw)).
  - apply fetch_frame.
  - apply afetch_frame.
  - intros k Hk. split; [by apply fetch_frame | by apply afetch_frame].
Qed.

(** The second and the third call of the example: the class sees the
    client that the second call made, and the third call changes
    nothing, whatever its keyword arguments. *)
Lemma fetch_reuses_client_witness :
  let w := number_world in
  let st2 := (fetch w "Loader" "u" 5 (classes_init w)).2 in
  (fetch w "Loader" "u" 9 st2).2 = st2
  ∧ fetch w "Loader" "u" 3 st2 = fetch w "Loader" "u" 9 st2.
Proof.
  pose (w := number_world).
  pose (st2 := (fetch w "Loader" "u" 5 (classes_init w)).2).
  destruct (fetch_reuses_client w st2 "Loader" "u" 9) as [H _].
  destruct H as [H1 H2].
  - exists 5. reflexivity.
  - split; [exact H1 | exact (H2 3)].
Defined.

(** ** Methods of the instance *)

Lemma bind_unfold {A B} (m : Method A) (k : A → Method B) st :
  (m ≫= k) st
  = match m st with
    | (Ok a, st') => k a st'
    | (Raise e, st') => (Raise e, st')
    end.
Proof. reflexivity. Qed.

Lemma bind_ok {A B} (m : Method A) (k : A → Method B) st a st' :
  m st = (Ok a, st') → (m ≫= k) st = k a st'.
Proof. intros H. by rewrite bind_unfold, H. Qed.

Lemma bind_raise {A B} (m : Method A) (k : A → Method B) st e st' :
  m st = (Raise e, st') → (m ≫= k) st = (Raise e, st').
Proof. intros H. by rewrite bind_unfold, H. Qed.


Lemma compile_unfold sync st :
  compile sync st
  = match split_template_tokens (text st) with
    | Ok tokens =>
        compile_tokens sync tokens (set_builder (get_base_builder sync) st)
    | Raise e => (Raise e, set_builder (get_base_builder sync) st)
    end.
Proof.
  unfold compile, compile_tokens, compile_end.
  rewrite bind_unfold. simpl.
  rewrite bind_unfold. simpl.
  rewrite bind_unfold. unfold lift at 1. simpl.
  by destruct (split_template_tokens (text st)).
Qed.

Section Related.
Context (R : TemplateCore → TemplateCore → Prop).

Lemma related_ret {A} (a : A) : related R (mret a) (mret a).
Proof. by intros st st' H. Qed.

Lemma related_raise {A} e : related R (raise (A:=A) e) (raise e).
Proof. by intros st st' H. Qed.

Lemma related_lift {A} (r : result A) : related R (lift r) (lift r).
Proof. by intros st st' H. Qed.

Lemma related_bind {A B} (m m' : Method A) (k k' : A → Method B) :
  related R m m' → (∀ a, related R (k a) (k' a)) →
  related R (m ≫= k) (m' ≫= k').
Proof.
  intros Hm Hk st st' H. rewrite !bind_unfold.
  destruct (Hm st st' H) as [H1 H2].
  destruct (m st) as [[a|e] st1], (m' st') as [[a'|e'] st1'];
    simpl in *; simplify_eq; [|done].
  by apply Hk.
Qed.

Lemma related_for_each {A} (f g : A → Method unit) l l' :
  Forall2 (λ x y, related R (f x) (g y)) l l' →
  related R (for_each f l) (for_each g l').
Proof.
  induction 1 as [|x y l l' Hxy Hl IH]; simpl.
  - apply related_ret.
  - apply related_bind; [done|]. by intros _.
Qed.

End Related.

(** ** Instances that differ in the text of some lines *)

Section StateRel.
Context (E : string → string → Prop).
Hypothesis E_refl : ∀ x, E x x.

Lemma builder_rel_refl b : builder_rel E b b.
Proof.
  split; [done|]. induction (b_code b); constructor; auto.
Qed.

Lemma related_gets_stack :
  related (state_rel E) (gets _ops_stack) (gets _ops_stack).
Proof.
  intros st st' H. split; [|done]. destruct H as (H1 & _). simpl. by rewrite H1.
Qed.

Lemma related_on_builder (f f' : CodeBuilder → result CodeBuilder) :
  (∀ b b', builder_rel E b b' →
     match f b, f' b' with
     | Ok x, Ok y => builder_rel E x y
     | Raise e, Raise e' => e = e'
     | _, _ => False
     end) →
  related (state_rel E) (on_builder f) (on_builder f').
Proof.
  intros Hf st st' (H1 & H2 & H3). unfold on_builder.
  destruct (_builder st) as [b|] eqn:Eb, (_builder st') as [b'|] eqn:Eb';
    inversion H3 as [? ? Hb|]; subst.
  - specialize (Hf b b' Hb).
    destruct (f b), (f' b'); simpl; try done.
    + repeat split; simpl; auto. by constructor.
    + subst. repeat split; simpl; auto. rewrite Eb, Eb'. by constructor.
  - repeat split; simpl; auto. rewrite Eb, Eb'. constructor.
Qed.

Lemma related_add_line l l' :
  E l l' → related (state_rel E) (add_line l) (add_line l').
Proof.
  intros Hl. apply related_on_builder. intros b b' [Hlvl Hcode].
  split; simpl; [done|].
  apply Forall2_app; [done|]. constructor; [|constructor]. by rewrite Hlvl.
Qed.

Lemma related_indent : related (state_rel E) indent indent.
Proof.
  apply related_on_builder. intros b b' [Hlvl Hcode].
  split; simpl; [by rewrite Hlvl | done].
Qed.

Lemma related_dedent : related (state_rel E) dedent dedent.
Proof.
  apply related_on_builder. intros b b' [Hlvl Hcode].
  unfold builder_dedent. rewrite <- Hlvl.
  destruct (b_indent_level b); [done|]. by split.
Qed.

Lemma related_buffer_append l l' :
  E l l' → related (state_rel E) (buffer_append l) (buffer_append l').
Proof.
  intros Hl st st' (H1 & H2 & H3). repeat split; simpl; auto.
  apply Forall2_app; [done|]. by constructor.
Qed.

Lemma related_set_stack (f : list string → list string) :
  related (state_rel E)
    (modify (λ self, set_ops_stack (f (_ops_stack self)) self))
    (modify (λ self, set_ops_stack (f (_ops_stack self)) self)).
Proof.
  intros st st' (H1 & H2 & H3). repeat split; simpl; auto. by rewrite H1.
Qed.

Lemma related_set_buffer_nil :
  related (state_rel E) (modify (set_buffer [])) (modify (set_buffer [])).
Proof. intros st st' (H1 & H2 & H3). repeat split; simpl; auto. Qed.

Lemma related_flush : related (state_rel E) _flush _flush.
Proof.
  intros st st' H. unfold _flush.
  rewrite !(bind_unfold (gets _buffer)). simpl.
  apply related_bind; [|intros _; apply related_set_buffer_nil|done].
  apply related_for_each. destruct H as (_ & H2 & _).
  eapply Forall2_impl; [exact H2|]. intros x y Hxy. by apply related_add_line.
Qed.

Lemma related_compile_end : related (state_rel E) compile_end compile_end.
Proof.
  unfold compile_end. apply related_bind; [apply related_gets_stack|].
  intros [|op stack]; [|apply related_raise].
  apply related_bind; [apply related_flush|]. intros _.
  apply related_bind; [by apply related_add_line|]. intros _.
  apply related_dedent.
Qed.

(** A control token that is no component invocation is read alike in
    both modes. *)
Lemma related_on_special_token token sync sync' :
  sync = sync' ∨ is_component_token token = false →
  PyStr.startswith "{{" (PyStr.strip token) = false →
  PyStr.startswith "{#" (PyStr.strip token) = false →
  PyStr.startswith "{%" (PyStr.strip token) = true →
  related (state_rel E) (_on_special_token token sync)
    (_on_special_token token sync').
Proof.
  intros Hmode H1 H2 H3. unfold _on_special_token.
  destruct (PyStr.startswith "end" (_unwrap_token token)) eqn:Hend.
  - apply related_bind; [apply related_gets_stack|]. intros stack.
    destruct (list_pop stack) as [[last rest]|]; [|apply related_raise].
    apply related_bind; [apply (related_set_stack (λ _, rest))|]. intros _.
    case_decide; [|apply related_raise].
    apply related_bind; [apply related_flush|]. intros _. apply related_dedent.
  - set (op := PyStr.before_space (_unwrap_token token)).
    destruct (bool_decide (op = "if") || bool_decide (op = "for")
              || bool_decide (op = "while")) eqn:Hopen.
    { apply related_bind; [apply (related_set_stack (λ s, s ++ [op]))|]. intros _.
      apply related_bind; [apply related_flush|]. intros _.
      apply related_bind; [by apply related_add_line|]. intros _.
      apply related_indent. }
    destruct (bool_decide (op = "else") || bool_decide (op = "elif")) eqn:Helse.
    { apply related_bind; [apply related_flush|]. intros _.
      apply related_bind; [apply related_dedent|]. intros _.
      apply related_bind; [by apply related_add_line|]. intros _.
      apply related_indent. }
    destruct Hmode as [<-|Hcomp].
    { destruct sync; by apply related_buffer_append. }
    exfalso. unfold is_component_token in Hcomp.
    rewrite H1, H2, H3, Hend in Hcomp. simpl in Hcomp.
    apply negb_false_iff, bool_decide_eq_true in Hcomp. fold op in Hcomp.
    apply orb_false_elim in Hopen as [Hopen Hw].
    apply orb_false_elim in Hopen as [Hi Hf].
    apply orb_false_elim in Helse as [He Hl].
    apply bool_decide_eq_false in Hi, Hf, Hw, He, Hl.
    apply list_elem_of_In in Hcomp. simpl in Hcomp. intuition congruence.
Qed.

Lemma related_on_token sync sync' tk tk' :
  token_rel E sync sync' tk tk' →
  related (state_rel E) (on_token sync tk) (on_token sync' tk').
Proof.
  intros [[<- Hmode]|(Hx & Hx' & HE)]; unfold on_token.
  - destruct (PyStr.startswith "{{" (PyStr.strip tk)) eqn:H1;
      [by apply related_buffer_append|].
    destruct (PyStr.startswith "{#" (PyStr.strip tk)) eqn:H2;
      [by apply related_buffer_append|].
    destruct (PyStr.startswith "{%" (PyStr.strip tk)) eqn:H3;
      [by apply related_on_special_token|].
    by apply related_buffer_append.
  - unfold is_exec_token in Hx, Hx'.
    apply andb_true_iff in Hx as [Hx1 Hx2], Hx' as [Hx1' Hx2'].
    apply negb_true_iff in Hx1, Hx1'.
    rewrite Hx1, Hx2, Hx1', Hx2'.
    by apply related_buffer_append.
Qed.

Lemma related_compile_tokens sync sync' toks toks' :
  Forall2 (token_rel E sync sync') toks toks' →
  related (state_rel E) (compile_tokens sync toks) (compile_tokens sync' toks').
Proof.
  intros H. unfold compile_tokens.
  apply related_bind; [|intros _; apply related_compile_end].
  apply related_for_each.
  eapply Forall2_impl; [exact H|]. intros x y Hxy. by apply related_on_token.
Qed.

Lemma state_rel_base sync sync' st st' :
  _ops_stack st = _ops_stack st' → Forall2 E (_buffer st) (_buffer st') →
  state_rel E (set_builder (get_base_builder sync) st)
    (set_builder (get_base_builder sync') st').
Proof.
  intros H1 H2. repeat split; simpl; auto. constructor. by split.
Qed.

End StateRel.

Lemma Forall2_eq_pairs (l l' : list (nat * string)) :
  Forall2 (λ x y, x.1 = y.1 ∧ x.2 = y.2) l l' → l = l'.
Proof.
  induction 1 as [|[a b] [a' b'] l l' [H1 H2] Hl IH]; simpl in *; by subst.
Qed.

(** ** What [compile] leaves alone *)

Lemma same_slots_refl st : same_slots st st.
Proof. by repeat split. Qed.

Lemma same_slots_trans st1 st2 st3 :
  same_slots st1 st2 → same_slots st2 st3 → same_slots st1 st3.
Proof. intros (?&?&?&?) (?&?&?&?). repeat split; congruence. Qed.

Lemma keeps_ret {A} (a : A) : keeps_slots (mret a).
Proof. intros st. apply same_slots_refl. Qed.

Lemma keeps_raise {A} e : keeps_slots (raise (A:=A) e).
Proof. intros st. apply same_slots_refl. Qed.

Lemma keeps_gets {A} (f : TemplateCore → A) : keeps_slots (gets f).
Proof. intros st. apply same_slots_refl. Qed.

Lemma keeps_lift {A} (r : result A) : keeps_slots (lift r).
Proof. intros st. apply same_slots_refl. Qed.

Lemma keeps_bind {A B} (m : Method A) (k : A → Method B) :
  keeps_slots m → (∀ a, keeps_slots (k a)) → keeps_slots (m ≫= k).
Proof.
  intros Hm Hk st. rewrite bind_unfold. specialize (Hm st).
  destruct (m st) as [[a|e] st1]; simpl in *; [|done].
  eapply same_slots_trans; [exact Hm|apply Hk].
Qed.

Lemma keeps_for_each {A} (f : A → Method unit) l :
  (∀ x, keeps_slots (f x)) → keeps_slots (for_each f l).
Proof.
  intros Hf. induction l as [|x l IH]; simpl; [apply keeps_ret|].
  apply keeps_bind; [apply Hf|by intros _].
Qed.

Lemma keeps_on_builder f :
  (∀ b b', f b = Ok b' → b_sync b' = b_sync b) → keeps_slots (on_builder f).
Proof.
  intros Hf st. unfold on_builder.
  destruct (_builder st) as [b|] eqn:Eb; [|apply same_slots_refl].
  destruct (f b) as [b'|] eqn:Efb; simpl; [|apply same_slots_refl].
  repeat split; simpl. rewrite Eb. simpl. f_equal. by apply Hf.
Qed.

Lemma keeps_add_line l : keeps_slots (add_line l).
Proof. apply keeps_on_builder. by intros b b' [= <-]. Qed.

Lemma keeps_indent : keeps_slots indent.
Proof. apply keeps_on_builder. by intros b b' [= <-]. Qed.

Lemma keeps_dedent : keeps_slots dedent.
Proof.
  apply keeps_on_builder. intros b b'. unfold builder_dedent.
  destruct (b_indent_level b); [done|]. by intros [= <-].
Qed.

Lemma keeps_set_buffer (f : TemplateCore → list string) :
  keeps_slots (modify (λ self, set_buffer (f self) self)).
Proof. intros st. by repeat split. Qed.

Lemma keeps_set_stack (f : TemplateCore → list string) :
  keeps_slots (modify (λ self, set_ops_stack (f self) self)).
Proof. intros st. by repeat split. Qed.

Lemma keeps_flush : keeps_slots _flush.
Proof.
  unfold _flush. apply keeps_bind; [apply keeps_gets|]. intros buffer.
  apply keeps_bind; [apply keeps_for_each; intros x; apply keeps_add_line|].
  intros _. apply (keeps_set_buffer (λ _, [])).
Qed.

Lemma keeps_on_token sync tk : keeps_slots (on_token sync tk).
Proof.
  unfold on_token, _on_eval_token, _on_exec_token, _on_literal_token,
    _on_special_token, buffer_append.
  repeat first
    [ apply keeps_flush
    | apply keeps_bind; [|intros ?]
    | apply keeps_gets
    | apply keeps_raise
    | apply keeps_add_line
    | apply keeps_indent
    | apply keeps_dedent
    | apply (keeps_set_buffer (λ self, _buffer self ++ [_]))
    | apply (keeps_set_stack (λ self, _ops_stack self ++ [_]))
    | apply (keeps_set_stack (λ _, _))
    | case_match ].
Qed.

Lemma keeps_compile_tokens sync toks : keeps_slots (compile_tokens sync toks).
Proof.
  unfold compile_tokens, compile_end.
  apply keeps_bind; [apply keeps_for_each; intros x; apply keeps_on_token|].
  intros _. apply keeps_bind; [apply keeps_gets|]. intros [|op stack];
    [|apply keeps_raise].
  apply keeps_bind; [apply keeps_flush|]. intros _.
  apply keeps_bind; [apply keeps_add_line|]. intros _. apply keeps_dedent.
Qed.

(** [compile] assigns neither the text nor the slots, and leaves a
    builder of its mode. *)
Lemma compile_slots sync st :
  text (compile sync st).2 = text st
  ∧ cached_render_code (compile sync st).2 = cached_render_code st
  ∧ cached_arender_code (compile sync st).2 = cached_arender_code st
  ∧ b_sync <$> _builder (compile sync st).2 = Some sync.
Proof.
  rewrite compile_unfold.
  destruct (split_template_tokens (text st)) as [toks|e]; [|done].
  apply (keeps_compile_tokens sync toks (set_builder (get_base_builder sync) st)).
Qed.

(** ** The cached routine *)

Lemma render_mode_hit h fuel sync ctx st code :
  cached_code sync st = Some code →
  render_mode h fuel sync ctx st = (Py.eval_code h fuel code ctx, st).
Proof.
  destruct sync; simpl; intros Hc;
    unfold TemplateCore_render, TemplateCore_arender, _render_code, _arender_code;
    rewrite bind_unfold, bind_unfold; simpl; by rewrite Hc.
Qed.

Lemma render_mode_miss h fuel sync ctx st :
  cached_code sync st = None →
  render_mode h fuel sync ctx st
  = match compile sync st with
    | (Raise e, st1) => (Raise e, st1)
    | (Ok _, st1) =>
        match _builder st1 with
        | None => (Raise AttributeError, st1)
        | Some b =>
            match get_render_function b with
            | Raise e => (Raise e, st1)
            | Ok code => (Py.eval_code h fuel code ctx, set_code sync code st1)
            end
        end
    end.
Proof.
  destruct sync; simpl; intros Hc;
    unfold TemplateCore_render, TemplateCore_arender, _render_code, _arender_code;
    rewrite bind_unfold, bind_unfold; simpl; rewrite Hc;
    rewrite bind_unfold.
  - destruct (compile true st) as [[[]|e] st1]; [|done].
    unfold the_builder. rewrite !bind_unfold. simpl.
    destruct (_builder st1) as [b|]; simpl; [|done].
    unfold lift. by destruct (get_render_function b).
  - destruct (compile false st) as [[[]|e] st1]; [|done].
    unfold the_builder. rewrite !bind_unfold. simpl.
    destruct (_builder st1) as [b|]; simpl; [|done].
    unfold lift. by destruct (get_render_function b).
Qed.

Lemma render_mode_fills_slot h fuel sync ctx st v :
  (render_mode h fuel sync ctx st).1 = Ok v →
  ∃ code, cached_code sync (render_mode h fuel sync ctx st).2 = Some code
          ∧ (∀ code0, cached_code sync st = Some code0 →
               code = code0 ∧ (render_mode h fuel sync ctx st).2 = st).
Proof.
  destruct (cached_code sync st) as [code0|] eqn:Hc.
  - rewrite (render_mode_hit h fuel sync ctx st code0 Hc). simpl.
    intros _. exists code0. split; [done|]. by intros ? [= <-].
  - rewrite (render_mode_miss h fuel sync ctx st Hc).
    destruct (compile sync st) as [[[]|e] st1]; [|done].
    destruct (_builder st1) as [b|]; [|done].
    destruct (get_render_function b) as [code|]; [|done].
    simpl. intros _. exists code. split; [by destruct sync|done].
Qed.

Lemma cached_code_set_text sync t st :
  cached_code sync (set_text t st) = cached_code sync st.
Proof. by destruct sync. Qed.

Lemma Template_render_mode_eq h fuel sync self ctx :
  Template_render_mode h fuel sync self ctx
  = ((render_mode h fuel sync (render_context h self ctx) (core self)).1,
     {| core := (render_mode h fuel sync (render_context h self ctx) (core self)).2;
        context := context self |}).
Proof. by destruct sync. Qed.

Lemma Template_render_mode_hit h fuel sync self ctx code :
  cached_code sync (core self) = Some code →
  Template_render_mode h fuel sync self ctx
  = (Py.eval_code h fuel code (render_context h self ctx), self).
Proof.
  intros Hc. rewrite Template_render_mode_eq.
  rewrite (render_mode_hit h fuel sync _ _ code Hc). simpl. by destruct self.
Qed.

Lemma render_mode_reuses h fuel sync self ctx v self1 :
  Template_render_mode h fuel sync self ctx = (Ok v, self1) →
  ∃ code, cached_code sync (core self1) = Some code
    ∧ (∀ code0, cached_code sync (core self) = Some code0 →
         code = code0 ∧ self1 = self)
    ∧ ∀ t' fuel' ctx',
        Template_render_mode h fuel' sync (set_template_text t' self1) ctx'
        = (Py.eval_code h fuel' code (render_context h self1 ctx'),
           set_template_text t' self1)
        ∧ (Template_render_mode h fuel' sync (set_template_text t' self1) ctx').1
          = (Template_render_mode h fuel' sync self1 ctx').1.
Proof.
  rewrite Template_render_mode_eq. intros [= Hv Hs].
  destruct (render_mode_fills_slot h fuel sync (render_context h self ctx)
              (core self) v Hv) as (code & Hcode & Hold).
  exists code. split; [by subst self1|]. split.
  { intros code0 H0. destruct (Hold code0 H0) as [-> Hst].
    split; [done|]. subst self1. rewrite Hst. by destruct self. }
  intros t' fuel' ctx'.
  assert (cached_code sync (core self1) = Some code) as Hc1 by by subst self1.
  rewrite (Template_render_mode_hit h fuel' sync (set_template_text t' self1) ctx' code)
    by by rewrite <- Hc1; destruct sync.
  rewrite (Template_render_mode_hit h fuel' sync self1 ctx' code Hc1).
  by split.
Qed.

(** C4: a render of either mode that returns leaves the routine of
    that mode in its slot, and leaves the instance as it is when the slot
    was filled before; from then on a render of that mode runs the
    routine of the slot and changes nothing in the instance, whatever
    has been assigned to the text in between, so the output of the later
    renders does not follow the text. *)
Theorem render_reuses_routine (h : Host) (fuel : nat) (self : Template)
    (ctx : option (gmap string value)) :
  (∀ v self1, Template_render h fuel self ctx = (Ok v, self1) →
     ∃ code, cached_render_code (core self1) = Some code
       ∧ (∀ code0, cached_render_code (core self) = Some code0 →
            code = code0 ∧ self1 = self)
       ∧ ∀ t' fuel' ctx',
           Template_render h fuel' (set_template_text t' self1) ctx'
           = (Py.eval_code h fuel' code (render_context h self1 ctx'),
              set_template_text t' self1)
           ∧ (Template_render h fuel' (set_template_text t' self1) ctx').1
             = (Template_render h fuel' self1 ctx').1)
  ∧ (∀ v self1, Template_arender h fuel self ctx = (Ok v, self1) →
     ∃ code, cached_arender_code (core self1) = Some code
       ∧ (∀ code0, cached_arender_code (core self) = Some code0 →
            code = code0 ∧ self1 = self)
       ∧ ∀ t' fuel' ctx',
           Template_arender h fuel' (set_template_text t' self1) ctx'
           = (Py.eval_code h fuel' code (render_context h self1 ctx'),
              set_template_text t' self1)
           ∧ (Template_arender h fuel' (set_template_text t' self1) ctx').1
             = (Template_arender h fuel' self1 ctx').1).
Proof.
  split; intros v self1 Hr.
  - apply (render_mode_reuses h fuel true self ctx v self1 Hr).
  - apply (render_mode_reuses h fuel false self ctx v self1 Hr).
Qed.

(** ** The two modes *)





(** ** The builder under [compile] *)

Lemma add_line_eq l st b :
  _builder st = Some b →
  add_line l st = (Ok tt, set_builder (builder_add_line l b) st).
Proof. intros Hb. unfold add_line, on_builder. by rewrite Hb. Qed.

Lemma indent_eq st b :
  _builder st = Some b →
  indent st = (Ok tt, set_builder (builder_indent b) st).
Proof. intros Hb. unfold indent, on_builder. by rewrite Hb. Qed.

Lemma dedent_eq st b n :
  _builder st = Some b → b_indent_level b = S n →
  dedent st
  = (Ok tt, set_builder {| b_sync := b_sync b; b_code := b_code b;
                           b_indent_level := n |} st).
Proof.
  intros Hb Hn. unfold dedent, on_builder, builder_dedent. by rewrite Hb, Hn.
Qed.

Lemma dedent_zero st b :
  _builder st = Some b → b_indent_level b = 0 →
  dedent st = (Raise DedentError, st).
Proof.
  intros Hb Hn. unfold dedent, on_builder, builder_dedent. by rewrite Hb, Hn.
Qed.

(** The builder after the lines [ls] have been added. *)
Lemma for_each_add_line ls st b :
  _builder st = Some b →
  for_each add_line ls st
  = (Ok tt,
     set_builder {| b_sync := b_sync b;
                    b_code := b_code b ++ ((λ l, (b_indent_level b, l)) <$> ls);
                    b_indent_level := b_indent_level b |} st).
Proof.
  revert st b. induction ls as [|l ls IH]; intros st b Hb; simpl.
  - rewrite app_nil_r. destruct st, b; simpl in *. by subst.
  - rewrite (bind_ok _ _ _ _ _ (add_line_eq l st b Hb)).
    rewrite (IH _ (builder_add_line l b)) by done. simpl.
    by rewrite <- app_assoc.
Qed.

Lemma flush_eq st b :
  _builder st = Some b →
  _flush st
  = (Ok tt,
     set_buffer []
       (set_builder {| b_sync := b_sync b;
                       b_code := b_code b
                                 ++ ((λ l, (b_indent_level b, l)) <$> _buffer st);
                       b_indent_level := b_indent_level b |} st)).
Proof.
  intros Hb. unfold _flush. rewrite bind_unfold. simpl.
  by rewrite (bind_ok _ _ _ _ _ (for_each_add_line (_buffer st) st b Hb)).
Qed.

(** ** The block stack *)

Lemma list_pop_snoc {A} (l : list A) x : list_pop (l ++ [x]) = Some (x, l).
Proof. unfold list_pop. by rewrite reverse_snoc, reverse_involutive. Qed.

Lemma list_pop_Some {A} (l r : list A) x : list_pop l = Some (x, r) → l = r ++ [x].
Proof.
  unfold list_pop. destruct (reverse l) as [|y k] eqn:E; [done|].
  intros [= -> <-]. by rewrite <- (reverse_involutive l), E, reverse_cons.
Qed.

Lemma list_pop_None {A} (l : list A) : list_pop l = None → l = [].
Proof.
  unfold list_pop. destruct (reverse l) eqn:E; [|done].
  intros _. by rewrite <- (reverse_involutive l), E.
Qed.

Lemma list_pop_app {A} (s0 new rest : list A) x :
  list_pop new = Some (x, rest) → list_pop (s0 ++ new) = Some (x, s0 ++ rest).
Proof.
  intros ->%list_pop_Some. by rewrite app_assoc, list_pop_snoc.
Qed.

Lemma buffer_append_block l s0 new st :
  block_inv s0 new st →
  ∃ st', buffer_append l st = (Ok tt, st') ∧ block_inv s0 new st'.
Proof. intros Hinv. eexists. by split. Qed.

(** One step of a method whose builder is there: a flush or a line. *)
Ltac method_step Hb :=
  rewrite bind_unfold;
  first [ erewrite flush_eq by (exact Hb || reflexivity)
        | erewrite add_line_eq by (exact Hb || reflexivity) ];
  cbn iota beta.

(** One token, on an instance whose stack is [s0] under the blocks
    [new] that this run of [compile] has opened. *)
Lemma on_token_block sync tk s0 new st :
  block_inv s0 new st →
  match closed_by tk with
  | Some kw =>
      match list_pop new with
      | None => s0 = [] → on_token sync tk st = (Raise IndexError, st)
      | Some (innermost, rest) =>
          if decide (innermost = kw)
          then ∃ st', on_token sync tk st = (Ok tt, st') ∧ block_inv s0 rest st'
          else on_token sync tk st
               = (Raise AssertionError, set_ops_stack (s0 ++ rest) st)
      end
  | None =>
      ∃ st', on_token sync tk st = (Ok tt, st')
             ∧ block_inv s0 (match opened_by tk with
                             | Some op => new ++ [op]
                             | None => new
                             end) st'
  end.
Proof.
  intros (b & Hb & Hstack & Hlvl).
  assert (block_inv s0 new st) as Hinv by (by exists b).
  unfold closed_by, opened_by, is_control_token, on_token.
  destruct (PyStr.startswith "{{" (PyStr.strip tk)); simpl;
    [by apply buffer_append_block|].
  destruct (PyStr.startswith "{#" (PyStr.strip tk)); simpl;
    [by apply buffer_append_block|].
  destruct (PyStr.startswith "{%" (PyStr.strip tk)); simpl;
    [|by apply buffer_append_block].
  unfold _on_special_token.
  destruct (PyStr.startswith "end" (_unwrap_token tk)); simpl.
  - rewrite bind_unfold. simpl.
    destruct (list_pop new) as [[innermost rest]|] eqn:Hpop.
    + rewrite Hstack, (list_pop_app s0 new rest innermost Hpop).
      rewrite bind_unfold. simpl.
      apply list_pop_Some in Hpop. subst new.
      case_decide; [|done].
      rewrite length_app in Hlvl. simpl in Hlvl.
      method_step Hb.
      erewrite dedent_eq; [|reflexivity|simpl; rewrite Hlvl; f_equal; lia].
      eexists. split; [done|]. eexists. split; [done|]. split; [done|].
      simpl. lia.
    + intros ->. apply list_pop_None in Hpop. subst new.
      by rewrite Hstack.
  - set (op := PyStr.before_space (_unwrap_token tk)).
    destruct (bool_decide (op = "if") || bool_decide (op = "for")
              || bool_decide (op = "while")) eqn:Hopen.
    + assert (bool_decide (op ∈ ["if"; "for"; "while"]) = true) as ->.
      { apply bool_decide_eq_true, list_elem_of_In. simpl.
        apply orb_true_iff in Hopen as [Hopen|Hw].
        - apply orb_true_iff in Hopen as [Hi|Hf].
          + apply bool_decide_eq_true in Hi. auto.
          + apply bool_decide_eq_true in Hf. auto.
        - apply bool_decide_eq_true in Hw. auto. }
      rewrite bind_unfold. simpl.
      method_step Hb. method_step Hb.
      erewrite indent_eq by reflexivity.
      eexists. split; [done|]. eexists. split; [done|]. simpl.
      split; [by rewrite Hstack, app_assoc|].
      rewrite length_app, Hlvl. simpl. lia.
    + assert (bool_decide (op ∈ ["if"; "for"; "while"]) = false) as ->.
      { apply bool_decide_eq_false. intros Hin.
        apply orb_false_elim in Hopen as [Hopen Hw].
        apply orb_false_elim in Hopen as [Hi Hf].
        apply bool_decide_eq_false in Hi, Hf, Hw.
        apply list_elem_of_In in Hin. simpl in Hin. intuition congruence. }
      destruct (bool_decide (op = "else") || bool_decide (op = "elif")).
      * method_step Hb.
        rewrite bind_unfold.
        erewrite dedent_eq; [|reflexivity|exact Hlvl]. cbn iota beta.
        method_step Hb.
        erewrite indent_eq by reflexivity.
        eexists. split; [done|]. eexists. split; [done|]. by split.
      * destruct sync; by apply buffer_append_block.
Qed.

(** The tokens in order: [compile] follows the block stack of the
    specification on the blocks that this run has opened. *)
Lemma for_each_block_stack sync toks s0 new st :
  block_inv s0 new st →
  match block_stack new toks with
  | Ok s =>
      ∃ st', for_each (on_token sync) toks st = (Ok tt, st') ∧ block_inv s0 s st'
  | Raise e =>
      (e = IndexError → s0 = []) →
      ∃ st', for_each (on_token sync) toks st = (Raise e, st')
             ∧ (e = IndexError → _ops_stack st' = [])
  end.
Proof.
  revert new st. induction toks as [|tk toks IH]; intros new st Hinv; simpl.
  { by exists st. }
  pose proof (on_token_block sync tk s0 new st Hinv) as Htk.
  rewrite bind_unfold.
  destruct (closed_by tk) as [kw|].
  - destruct (list_pop new) as [[innermost rest]|] eqn:Hpop.
    + case_decide.
      * destruct Htk as (st' & -> & Hinv'). by apply IH.
      * intros _. rewrite Htk. eexists. by split.
    + intros Hs0. rewrite (Htk (Hs0 eq_refl)). eexists. split; [done|].
      intros _. destruct Hinv as (b & _ & -> & _).
      apply list_pop_None in Hpop. subst new. by rewrite Hs0.
  - destruct Htk as (st' & -> & Hinv').
    destruct (opened_by tk); by apply IH.
Qed.

Lemma block_stack_app stack pre post :
  block_stack stack (pre ++ post)
  = match block_stack stack pre with
    | Ok stack' => block_stack stack' post
    | Raise e => Raise e
    end.
Proof.
  revert stack. induction pre as [|tk pre IH]; intros stack; simpl; [done|].
  destruct (closed_by tk).
  - destruct (list_pop stack) as [[innermost rest]|]; [|done].
    by case_decide.
  - by destruct (opened_by tk).
Qed.

(** The defects are the ways in which the block stack of the tokens
    fails or ends with blocks open. *)
Lemma block_defect_stack toks e :
  block_defect toks e →
  (block_stack [] toks = Raise e ∧ (e = AssertionError ∨ e = IndexError))
  ∨ (∃ op stack, block_stack [] toks = Ok (op :: stack)
                 ∧ e = SyntaxError (op :: stack)).
Proof.
  intros [pre tk post stack rest innermost kw -> Hpre Hkw Hpop Hne
         |pre tk post kw -> Hpre Hkw
         |stack Hall Hne].
  - left. rewrite block_stack_app, Hpre. simpl. rewrite Hkw, Hpop.
    rewrite decide_False by done. auto.
  - left. rewrite block_stack_app, Hpre. simpl. rewrite Hkw. auto.
  - right. destruct stack as [|op stack]; [done|]. eauto.
Qed.

(** [compile] on any instance, by the block stack of its tokens. *)
Lemma compile_block_stack sync st toks :
  split_template_tokens (text st) = Ok toks →
  match block_stack [] toks with
  | Raise e =>
      (e = IndexError → _ops_stack st = []) →
      (compile sync st).1 = Raise e
      ∧ (e = IndexError → _ops_stack (compile sync st).2 = [])
  | Ok (op :: stack) =>
      (compile sync st).1 = Raise (SyntaxError (_ops_stack st ++ op :: stack))
  | Ok [] => _ops_stack st = [] → (compile sync st).1 = Ok tt
  end.
Proof.
  intros Hsplit. rewrite compile_unfold, Hsplit. unfold compile_tokens.
  set (st0 := set_builder (get_base_builder sync) st).
  assert (block_inv (_ops_stack st) [] st0) as Hinv0.
  { eexists. split; [done|]. split; [|done]. simpl. by rewrite app_nil_r. }
  pose proof (for_each_block_stack sync toks _ _ _ Hinv0) as H.
  destruct (block_stack [] toks) as [stack|e].
  - destruct H as (st1 & Hrun & b & Hb & Hstack & Hlvl).
    rewrite (bind_ok _ _ _ _ _ Hrun). unfold compile_end.
    rewrite bind_unfold. simpl. rewrite Hstack.
    destruct stack as [|op stack].
    + intros ->. simpl. method_step Hb. method_step Hb.
      by erewrite dedent_eq.
    + by destruct (_ops_stack st).
  - intros Hs0. destruct (H Hs0) as (st1 & Hrun & Hend).
    by rewrite (bind_raise _ _ _ _ _ Hrun).
Qed.

Lemma structural_cases (e : exn) :
  structural e
  ↔ e = AssertionError ∨ e = IndexError
    ∨ ∃ stack, stack ≠ [] ∧ e = SyntaxError stack.
Proof. done. Qed.

(** The instance after renders that all failed in [compile]: the text
    and the empty slots are as they were, and the stack is empty when
    the defect is a closer with no block open. *)
Lemma render_mode_defect h fuel sync ctx st toks :
  split_template_tokens (text st) = Ok toks →
  (∃ e, block_defect toks e) →
  cached_render_code st = None → cached_arender_code st = None →
  (block_stack [] toks = Raise IndexError → _ops_stack st = []) →
  let r := render_mode h fuel sync ctx st in
  (∃ e, structural e ∧ r.1 = Raise e)
  ∧ text r.2 = text st
  ∧ cached_render_code r.2 = None ∧ cached_arender_code r.2 = None
  ∧ (block_stack [] toks = Raise IndexError → _ops_stack r.2 = []).
Proof.
  intros Hsplit [e0 Hdefect] Hr Ha Hidx. cbn zeta.
  rewrite render_mode_miss by by destruct sync.
  pose proof (compile_slots sync st) as (Ht & Hr' & Ha' & _).
  pose proof (compile_block_stack sync st toks Hsplit) as Hc.
  apply block_defect_stack in Hdefect
    as [[Hstack He0]|(op & stack & Hstack & _)]; rewrite Hstack in Hc.
  - destruct Hc as [Hc Hend].
    { intros ->. by apply Hidx. }
    destruct (compile sync st) as [[[]|e'] st1]; simpl in *; simplify_eq.
    split_and!; try congruence.
    + exists e0. split; [|done]. destruct He0; [by left|by right; left].
    + intros Hi. apply Hend. congruence.
  - destruct (compile sync st) as [[[]|e'] st1]; simpl in *; simplify_eq.
    split_and!; try congruence.
    exists (SyntaxError (_ops_stack st ++ op :: stack)). split; [|done].
    right. right. eexists. split; [|done]. by destruct (_ops_stack st).
Qed.

(** C3: when the tokens of a template have a closer that does not match
    the innermost open block, a closer with no block open, or blocks left
    open at the end, compiling a fresh instance in either mode raises
    (the failed assertion, the pop from the empty stack, the syntax error
    with the open blocks), the render of either mode raises the same,
    and after any renders of the instance, of either mode, both slots
    are still empty and the next render raises a structural error
    again. *)
Theorem compile_fails_on_block_defect (h : Host) (T : string)
    (toks : list string) (e : exn) (dflt : option (gmap string value)) :
  split_template_tokens T = Ok toks →
  block_defect toks e →
  (∀ sync, (compile sync (TemplateCore_init T)).1 = Raise e)
  ∧ (∀ sync fuel ctx,
       (Template_render_mode h fuel sync (Template_init T dflt) ctx).1
       = Raise e)
  ∧ (∀ self, rendered_from h (Template_init T dflt) self →
       ∀ sync fuel ctx,
         cached_code sync (core self) = None
         ∧ ∃ e', structural e'
                 ∧ (Template_render_mode h fuel sync self ctx).1 = Raise e').
Proof.
  intros Hsplit Hdefect.
  assert (∀ sync, (compile sync (TemplateCore_init T)).1 = Raise e) as Hc.
  { intros sync.
    pose proof (compile_block_stack sync (TemplateCore_init T) toks Hsplit) as H.
    apply block_defect_stack in Hdefect
      as [[Hstack _]|(op & stack & Hstack & ->)]; rewrite Hstack in H.
    - by apply H.
    - exact H. }
  split; [done|]. split.
  { intros sync fuel ctx.
    rewrite Template_render_mode_eq. cbn [fst snd core Template_init].
    rewrite render_mode_miss by by destruct sync.
    specialize (Hc sync).
    by destruct (compile sync (TemplateCore_init T)) as [[[]|e'] st1];
      simpl in *; simplify_eq. }
  assert (∀ self, rendered_from h (Template_init T dflt) self →
            text (core self) = T
            ∧ cached_render_code (core self) = None
            ∧ cached_arender_code (core self) = None
            ∧ (block_stack [] toks = Raise IndexError → _ops_stack (core self) = []))
    as Hinv.
  { induction 1 as [|self sync fuel ctx Hfrom (Ht & Hr & Ha & Hidx)]; [done|].
    rewrite Template_render_mode_eq. cbn [snd core].
    destruct (render_mode_defect h fuel sync (render_context h self ctx)
                (core self) toks) as (_ & Ht' & Hr' & Ha' & Hidx');
      eauto; try congruence.
    split_and!; [congruence|done..]. }
  intros self Hfrom sync fuel ctx.
  destruct (Hinv self Hfrom) as (Ht & Hr & Ha & Hidx).
  split; [by destruct sync|].
  rewrite Template_render_mode_eq. cbn [fst].
  destruct (render_mode_defect h fuel sync (render_context h self ctx)
              (core self) toks) as (He & _); eauto; congruence.
Qed.

(** The template of the claim: both modes, and the other mode after a
    first failure. *)
Lemma compile_fails_on_block_defect_witness :
  let t := Template_init "{% if a %}x{% endfor %}" None in
  (Template_render_mode (plain_host ∅) 9 true t None).1 = Raise AssertionError
  ∧ (Template_render_mode (plain_host ∅) 9 false t None).1 = Raise AssertionError
  ∧ cached_code false
      (core (Template_render_mode (plain_host ∅) 9 true t None).2) = None.
Proof.
  assert (block_defect ["{% if a %}"; "x"; "{% endfor %}"] AssertionError) as Hd.
  { by eapply (defect_mismatched _ ["{% if a %}"; "x"] "{% endfor %}" []
                 ["if"] [] "if" "for"). }
  destruct (compile_fails_on_block_defect (plain_host ∅)
              "{% if a %}x{% endfor %}" _ _ None eq_refl Hd) as (_ & Hr & Hlater).
  split; [apply Hr|]. split; [apply Hr|].
  refine (proj1 (Hlater _ _ false 9 None)).
  apply rendered_step, rendered_refl.
Defined.

(** ** [repr] and the string literal *)

Lemma append_nil_r s : s +:+ EmptyString = s.
Proof. induction s as [|c s IH]; simpl; [done|]. unfold String.app in *. simpl. by rewrite IH. Qed.

Lemma literal_body_repr_char q c k :
  q = PyStr.squote ∨ q = PyStr.dquote →
  PyStr.literal_body q (PyStr.repr_char q c k)
  = String c <$> PyStr.literal_body q k.
Proof.
  intros [-> | ->]; destruct c as [[] [] [] [] [] [] [] []]; reflexivity.
Qed.

Lemma literal_body_repr_body q s :
  q = PyStr.squote ∨ q = PyStr.dquote →
  PyStr.literal_body q (PyStr.repr_body q s) = Some s.
Proof.
  intros Hq. induction s as [|c s IH]; simpl.
  - rewrite bool_decide_eq_true_2 by done. done.
  - rewrite literal_body_repr_char by done. by rewrite IH.
Qed.

(** Reading the literal that [repr] writes gives the string back. *)
Lemma read_literal_repr s : PyStr.read_literal (PyStr.repr s) = Some s.
Proof.
  unfold PyStr.repr, PyStr.read_literal, PyStr.repr_quote.
  destruct (PyStr.contains_char PyStr.squote s
            && negb (PyStr.contains_char PyStr.dquote s)); simpl;
    apply literal_body_repr_body; auto.
Qed.

Lemma repr_not_await s : PyStr.startswith "await " (PyStr.repr s) = false.
Proof.
  unfold PyStr.repr, PyStr.repr_quote.
  by destruct (PyStr.contains_char PyStr.squote s
               && negb (PyStr.contains_char PyStr.dquote s)).
Qed.

(** ** The tokens of a text with no delimiter *)

Lemma append_assoc_char cur a s :
  (cur +:+ String a EmptyString) +:+ s = cur +:+ String a s.
Proof.
  unfold String.app. induction cur as [|c cur IH]; simpl; [done|]. by rewrite IH.
Qed.

Lemma emit_literal_nonempty cur a :
  Tokenizer.emit_literal (cur +:+ String a EmptyString)
  = [cur +:+ String a EmptyString].
Proof. by destruct cur. Qed.

Lemma has_open_delim_tail a s :
  has_open_delim (String a s) = false → has_open_delim s = false.
Proof.
  destruct s as [|d s]; [done|]. cbn [has_open_delim].
  intros H. by apply orb_false_elim in H as [_ H].
Qed.

Lemma lex_literal_step cur a d rest :
  Tokenizer.lex Tokenizer.InLiteral cur (String a (String d rest))
  = match (if bool_decide (a = "{"%char) then Tokenizer.closer d else None) with
    | Some c =>
        (Tokenizer.emit_literal cur ++.) <$>
          Tokenizer.lex (Tokenizer.InSpan c) (String a (String d EmptyString)) rest
    | None =>
        Tokenizer.lex Tokenizer.InLiteral (cur +:+ String a EmptyString)
          (String d rest)
    end.
Proof. reflexivity. Qed.

Lemma lex_literal cur s :
  has_open_delim s = false →
  Tokenizer.lex Tokenizer.InLiteral cur s = Some (Tokenizer.emit_literal (cur +:+ s)).
Proof.
  revert cur. induction s as [|a s IH]; intros cur Hs.
  - simpl. by rewrite append_nil_r.
  - destruct s as [|d rest].
    + simpl. by rewrite emit_literal_nonempty.
    + pose proof (has_open_delim_tail _ _ Hs) as Htail.
      cbn [has_open_delim] in Hs. apply orb_false_elim in Hs as [Hhead _].
      rewrite lex_literal_step.
      assert ((if bool_decide (a = "{"%char) then Tokenizer.closer d else None)
              = None) as ->.
      { destruct (bool_decide (a = "{"%char)); [|done].
        by destruct (Tokenizer.closer d). }
      rewrite (IH _ Htail). by rewrite append_assoc_char.
Qed.

Lemma split_no_delim s :
  has_open_delim s = false →
  split_template_tokens s = Ok (Tokenizer.emit_literal s).
Proof.
  intros Hs. unfold split_template_tokens. by rewrite (lex_literal EmptyString s Hs).
Qed.

(** A trimmed text starts with an opening delimiter only if the text
    holds one. *)
Lemma startswith_cons a p b s :
  PyStr.startswith (String a p) (String b s)
  = if decide (a = b) then PyStr.startswith p s else false.
Proof. reflexivity. Qed.

Lemma startswith_app p s t :
  PyStr.startswith p s = true → PyStr.startswith p (s +:+ t) = true.
Proof.
  revert s. induction p as [|a p IH]; intros [|b s]; try done.
  change (String b s +:+ t) with (String b (s +:+ t)).
  rewrite !startswith_cons. case_decide; [|done]. apply IH.
Qed.

Lemma rstrip_with_prefix p s : ∃ t, s = PyStr.rstrip_with p s +:+ t.
Proof.
  induction s as [|c s [t IH]]; simpl; [by exists EmptyString|].
  destruct (PyStr.is_empty (PyStr.rstrip_with p s) && p c).
  - by exists (String c s).
  - exists t. unfold String.app in *. simpl. by rewrite <- IH.
Qed.

Lemma has_open_delim_lstrip p s :
  has_open_delim s = false → has_open_delim (PyStr.lstrip_with p s) = false.
Proof.
  induction s as [|c s IH]; [done|]. intros Hs. simpl.
  destruct (p c); [|done]. apply IH. by eapply has_open_delim_tail.
Qed.

Lemma startswith_open_delim d s :
  Tokenizer.closer d ≠ None →
  PyStr.startswith (String "{" (String d EmptyString)) s = true →
  has_open_delim s = true.
Proof.
  intros Hd. destruct s as [|a [|b s]]; try done.
  - rewrite startswith_cons. by case_decide.
  - rewrite !startswith_cons. case_decide; [|done]. case_decide; [|done].
    subst. intros _.
    cbn [has_open_delim]. rewrite bool_decide_eq_true_2 by done.
    by destruct (Tokenizer.closer b).
Qed.

Lemma strip_no_open_delim d s :
  Tokenizer.closer d ≠ None →
  has_open_delim s = false →
  PyStr.startswith (String "{" (String d EmptyString)) (PyStr.strip s) = false.
Proof.
  intros Hd Hs.
  destruct (PyStr.startswith _ (PyStr.strip s)) eqn:E; [|done].
  unfold PyStr.strip, PyStr.strip_with in E.
  destruct (rstrip_with_prefix PyStr.is_space (PyStr.lstrip_with PyStr.is_space s))
    as [t Ht].
  apply (startswith_app _ _ t) in E. rewrite <- Ht in E.
  apply (startswith_open_delim d) in E; [|done].
  by rewrite (has_open_delim_lstrip _ _ Hs) in E.
Qed.

Lemma on_token_literal sync token :
  has_open_delim token = false →
  on_token sync token = _on_literal_token token.
Proof.
  intros Hs. unfold on_token.
  by rewrite (strip_no_open_delim "{" token), (strip_no_open_delim "#" token),
    (strip_no_open_delim "%" token).
Qed.

(** ** The lines of the routine *)

Lemma ends_with_char_snoc c s :
  PyStr.ends_with_char c (s +:+ String c EmptyString) = true.
Proof.
  induction s as [|a s IH]; [by apply bool_decide_eq_true|].
  change (String a s +:+ String c EmptyString)
    with (String a (s +:+ String c EmptyString)).
  destruct s; exact IH.
Qed.

Lemma drop_last_snoc c s : PyStr.drop_last (s +:+ String c EmptyString) = s.
Proof.
  induction s as [|a s IH]; [done|].
  change (String a s +:+ String c EmptyString)
    with (String a (s +:+ String c EmptyString)).
  destruct s; simpl in *; [done|]. by rewrite IH.
Qed.

Lemma ends_with_char_cons c a s :
  s ≠ EmptyString →
  PyStr.ends_with_char c (String a s) = PyStr.ends_with_char c s.
Proof. by destruct s. Qed.

Lemma snoc_nonempty s c : s +:+ String c EmptyString ≠ EmptyString.
Proof. by destruct s. Qed.

(** A call of [append_result] is read as one, with its argument. *)
Lemma classify_append_call e :
  Py.classify ("append_result(" +:+ e +:+ ")") = Py.LAppend e.
Proof.
  unfold Py.classify.
  rewrite bool_decide_eq_false_2 by done.
  assert (PyStr.startswith "append_result(" ("append_result(" +:+ e +:+ ")") = true)
    as -> by done.
  assert (PyStr.ends_with_char ")" ("append_result(" +:+ e +:+ ")") = true) as ->.
  { change ("append_result(" +:+ e +:+ ")")
      with (String "a" (String "p" (String "p" (String "e" (String "n"
             (String "d" (String "_" (String "r" (String "e" (String "s"
             (String "u" (String "l" (String "t" (String "("
             (e +:+ ")"))))))))))))))).
    rewrite !ends_with_char_cons; try apply ends_with_char_snoc;
      try apply snoc_nonempty; done. }
  simpl. f_equal. apply drop_last_snoc.
Qed.

Lemma classify_return_line : Py.classify return_line = Py.LReturn.
Proof. reflexivity. Qed.

Lemma line_awaits_literal token : Py.line_awaits (literal_line token) = false.
Proof.
  unfold Py.line_awaits, literal_line. rewrite classify_append_call.
  by rewrite repr_not_await.
Qed.

Lemma line_awaits_return : Py.line_awaits return_line = false.
Proof. reflexivity. Qed.

(** ** Running the routine *)

Lemma exec_block_simple h n lvl st t rest fr :
  Py.is_header t = false →
  Py.exec_block h (S n) lvl st ((lvl, t) :: rest) fr
  = match Py.simple_step h t fr with
    | Some (Next fr') => Py.exec_block h n lvl Py.NoChain rest fr'
    | Some (Return v) => Py.Returned v
    | None => Py.Failed
    end.
Proof.
  intros Hh. cbn [Py.exec_block]. rewrite Nat.eqb_refl. cbn [negb].
  unfold Py.is_header in Hh. by destruct (Py.classify t).
Qed.

Lemma simple_step_literal h token fr :
  Py.load_name "append_result" fr = Some VAppend →
  Py.simple_step h (literal_line token) fr
  = Some (Next (Py.push_result (VStr token) fr)).
Proof.
  intros Ha. unfold Py.simple_step, literal_line.
  rewrite classify_append_call, Ha.
  unfold Py.eval_expr, Py.parse_expr, Py.parse_atom.
  by rewrite read_literal_repr.
Qed.

Lemma simple_step_return h fr :
  Py.load_name "result" fr = Some VResult →
  Py.load_name "map" fr = Some (VBuiltin "map") →
  Py.load_name "str" fr = Some (VBuiltin "str") →
  Py.simple_step h return_line fr
  = Some (Return (VStr (PyStr.join (Py.str h <$> f_result fr)))).
Proof.
  intros Hr Hm Hs. unfold Py.simple_step.
  by rewrite classify_return_line, Hr, Hm, Hs.
Qed.


Lemma builtin_name_map : "map" ∈ ["dict"; "map"; "str"].
Proof. apply list_elem_of_In. simpl. auto. Qed.

Lemma builtin_name_str : "str" ∈ ["dict"; "map"; "str"].
Proof. apply list_elem_of_In. simpl. auto. Qed.

Lemma load_name_builtin env n locals result :
  n ∈ ["dict"; "map"; "str"] → sees_builtin env n →
  locals !! n = None →
  Py.load_name n {| f_globals := env; f_locals := locals; f_result := result |}
  = Some (VBuiltin n).
Proof.
  intros Hn Hsees Hloc. unfold Py.load_name. simpl. rewrite Hloc.
  destruct Hsees as [-> | ->]; [|done].
  unfold Py.builtin. by rewrite bool_decide_eq_true_2.
Qed.

Lemma sees_builtin_render_context h self ctx n :
  clean_baseline h → n ∈ ["dict"; "map"; "str"] →
  context self = ∅ → (ctx = None ∨ ctx = Some ∅) →
  sees_builtin (render_context h self ctx) n.
Proof.
  intros Hclean Hn Hself Hctx. unfold sees_builtin.
  destruct (render_context_layers h self ctx) as (_ & Hget & _).
  rewrite !Hget, Hself.
  destruct (Hclean n Hn) as [-> | ->]; [|by right].
  left. destruct Hctx as [-> | ->]; simpl; by rewrite ?lookup_empty.
Qed.

(** ** A template with no delimiter *)

(** [compile] on a fresh instance whose text holds no delimiter: one
    call of [append_result] with the literal (none for the empty text),
    then the line that ends the routine. *)
Lemma compile_literal sync T :
  has_open_delim T = false →
  ∃ st, compile sync (TemplateCore_init T) = (Ok tt, st)
        ∧ _builder st
          = Some {| b_sync := sync;
                    b_code := ((λ t, (1, literal_line t)) <$> Tokenizer.emit_literal T)
                              ++ [(1, return_line)];
                    b_indent_level := 0 |}.
Proof.
  intros HT. rewrite compile_unfold. cbn [text TemplateCore_init].
  rewrite (split_no_delim T HT). unfold compile_tokens, compile_end.
  destruct T as [|a T]; cbn [Tokenizer.emit_literal PyStr.is_empty for_each].
  - eexists. split; reflexivity.
  - rewrite (on_token_literal sync _ HT).
    eexists. split; reflexivity.
Qed.

Lemma eval_code_literal h fuel sync T env :
  3 ≤ fuel → sees_builtin env "map" → sees_builtin env "str" →
  Py.eval_code h fuel
    {| co_sync := sync;
       co_lines := ((λ t, (1, literal_line t)) <$> Tokenizer.emit_literal T)
                   ++ [(1, return_line)] |} env
  = Ok (Some (VStr T)).
Proof.
  intros Hfuel Hmap Hstr. unfold Py.eval_code. cbn [co_lines].
  destruct fuel as [|[|[|fuel]]]; try lia.
  assert (∀ result,
            Py.load_name "map" {| f_globals := env; f_locals := Py.prelude;
                                  f_result := result |} = Some (VBuiltin "map")
            ∧ Py.load_name "str" {| f_globals := env; f_locals := Py.prelude;
                                    f_result := result |} = Some (VBuiltin "str"))
    as Hnames.
  { intros result.
    split; apply load_name_builtin;
      auto using builtin_name_map, builtin_name_str. }
  destruct T as [|a T]; cbn [Tokenizer.emit_literal PyStr.is_empty fmap list_fmap app].
  - rewrite exec_block_simple by done.
    rewrite simple_step_return; [done|done|apply Hnames..].
  - rewrite exec_block_simple by (unfold Py.is_header, literal_line;
                                   by rewrite classify_append_call).
    rewrite simple_step_literal by done.
    rewrite exec_block_simple by done.
    rewrite simple_step_return; [|done|apply Hnames..].
    cbn [f_result Py.push_result app fmap list_fmap Py.str PyStr.join foldr].
    by rewrite append_nil_r.
Qed.

(** C2: the render of a template whose text holds no opening delimiter,
    against an empty environment (no override or an empty one, no
    default bindings, a baseline that leaves the builtins alone), gives
    the text itself in both modes. *)
Theorem literal_template_renders_itself (h : Host) (fuel : nat) (T : string)
    (ctx : option (gmap string value)) :
  has_open_delim T = false →
  clean_baseline h →
  ctx = None ∨ ctx = Some ∅ →
  3 ≤ fuel →
  (Template_render h fuel (Template_init T None) ctx).1 = Ok (Some (VStr T))
  ∧ (Template_arender h fuel (Template_init T None) ctx).1 = Ok (Some (VStr T)).
Proof.
  intros HT Hclean Hctx Hfuel.
  assert (∀ sync,
            (Template_render_mode h fuel sync (Template_init T None) ctx).1
            = Ok (Some (VStr T))) as Hmode.
  { intros sync. rewrite Template_render_mode_eq. cbn [fst snd core Template_init].
    rewrite render_mode_miss by by destruct sync.
    destruct (compile_literal sync T HT) as (st & -> & ->).
    unfold get_render_function. cbn [b_sync b_code].
    assert (existsb (λ lt : nat * string, Py.line_awaits lt.2)
              (((λ t, (1, literal_line t)) <$> Tokenizer.emit_literal T)
               ++ [(1, return_line)]) = false) as ->.
    { destruct T; cbn; [done|]. by rewrite line_awaits_literal. }
    rewrite andb_false_r. cbn [fst].
    apply eval_code_literal; [done|..];
      apply sees_builtin_render_context;
      auto using builtin_name_map, builtin_name_str. }
  split; [apply (Hmode true) | apply (Hmode false)].
Qed.

(** A text with quotes, a backslash, a brace and a line break. *)
Lemma literal_template_renders_itself_witness :
  let T := "say 'hi' \ {x}" +:+ String "010" "end" in
  (Template_render (plain_host ∅) 3 (Template_init T None) None).1
  = Ok (Some (VStr T))
  ∧ (Template_arender (plain_host ∅) 3 (Template_init T None) None).1
    = Ok (Some (VStr T)).
Proof.
  apply (literal_template_renders_itself (plain_host ∅) 3).
  - reflexivity.
  - intros n _. left. apply lookup_empty.
  - by left.
  - lia.
Defined.

(** ** The invocation of a component *)

Lemma make_context_kwargs inner :
  PyStr.has_space inner = true →
  _make_context inner = "dict(" +:+ PyStr.after_space inner +:+ ")".
Proof. intros H. unfold _make_context. by rewrite H. Qed.







(** ** Statements with the same effect *)










(** ** Instances of the theorems *)

(** The text is assigned after the first render, and the second render
    gives what the first gave. *)
Lemma render_reuses_routine_witness :
  let h := plain_host ∅ in
  let self1 := (Template_render h 3 (Template_init "hello" None) None).2 in
  (Template_render h 3 (set_template_text "bye" self1) None).1
  = (Template_render h 3 self1 None).1
  ∧ (Template_render h 3 self1 None).1 = Ok (Some (VStr "hello")).
Proof.
  pose (h := plain_host ∅).
  pose (self1 := (Template_render h 3 (Template_init "hello" None) None).2).
  destruct (render_reuses_routine h 3 (Template_init "hello" None) None) as [H _].
  destruct (H (Some (VStr "hello")) self1) as (code & _ & _ & Hreuse).
  - reflexivity.
  - split; [exact (proj2 (Hreuse "bye" 3 None))|reflexivity].
Defined.



Example exec_token_pass_output :
  (Template_render_mode pass_host 4 true
     (Template_init "a{# pass #}b" None) None).1 = Ok (Some (VStr "ab")).
Proof. reflexivity. Qed.

(** * Further properties of the code *)

(** ** Trimming *)

Lemma string_app_cons (c : ascii) (s t : string) :
  String c s +:+ t = String c (s +:+ t).
Proof. reflexivity. Qed.

Lemma string_app_nil (t : string) : EmptyString +:+ t = t.
Proof. reflexivity. Qed.

Lemma string_app_assoc (s t u : string) : (s +:+ t) +:+ u = s +:+ (t +:+ u).
Proof.
  induction s as [|c s IH]; [done|]. by rewrite !string_app_cons, IH.
Qed.

Lemma string_app_length (s t : string) :
  String.length (s +:+ t) = String.length s + String.length t.
Proof.
  induction s as [|c s IH]; [done|]. rewrite string_app_cons. simpl. by rewrite IH.
Qed.

Lemma is_empty_app (s t : string) :
  PyStr.is_empty (s +:+ t) = PyStr.is_empty s && PyStr.is_empty t.
Proof. by destruct s. Qed.

Lemma is_empty_true (s : string) : PyStr.is_empty s = true → s = EmptyString.
Proof. by destruct s. Qed.

Lemma lstrip_with_app p s t :
  PyStr.lstrip_with p (s +:+ t)
  = if PyStr.is_empty (PyStr.lstrip_with p s) then PyStr.lstrip_with p t
    else PyStr.lstrip_with p s +:+ t.
Proof.
  induction s as [|c s IH]; [done|]. rewrite string_app_cons. simpl.
  destruct (p c); [exact IH|done].
Qed.

Lemma rstrip_with_app p s t :
  PyStr.rstrip_with p (s +:+ t)
  = if PyStr.is_empty (PyStr.rstrip_with p t) then PyStr.rstrip_with p s
    else s +:+ PyStr.rstrip_with p t.
Proof.
  induction s as [|c s IH].
  - rewrite string_app_nil. by destruct (PyStr.rstrip_with p t).
  - rewrite string_app_cons. simpl.
    rewrite IH. destruct (PyStr.is_empty (PyStr.rstrip_with p t)) eqn:E; [done|].
    rewrite is_empty_app, E, andb_false_r. done.
Qed.

Lemma lstrip_with_all p s : Py.all_chars p s = true → PyStr.lstrip_with p s = EmptyString.
Proof.
  induction s as [|c s IH]; simpl; [done|].
  intros [Hc Hs]%andb_true_iff. rewrite Hc. auto.
Qed.

Lemma rstrip_with_all p s : Py.all_chars p s = true → PyStr.rstrip_with p s = EmptyString.
Proof.
  induction s as [|c s IH]; simpl; [done|].
  intros [Hc Hs]%andb_true_iff. by rewrite IH, Hc.
Qed.

Lemma lstrip_with_idem p s :
  PyStr.lstrip_with p (PyStr.lstrip_with p s) = PyStr.lstrip_with p s.
Proof.
  induction s as [|c s IH]; simpl; [done|].
  destruct (p c) eqn:E; [done|]. simpl. by rewrite E.
Qed.

Lemma rstrip_with_idem p s :
  PyStr.rstrip_with p (PyStr.rstrip_with p s) = PyStr.rstrip_with p s.
Proof.
  induction s as [|c s IH]; simpl; [done|].
  destruct (PyStr.is_empty (PyStr.rstrip_with p s) && p c) eqn:E; [done|].
  simpl. by rewrite IH, E.
Qed.

(** Trimming at the right leaves a text trimmed at the left as it is at
    the left. *)
Lemma lstrip_rstrip_with p s :
  PyStr.lstrip_with p s = s →
  PyStr.lstrip_with p (PyStr.rstrip_with p s) = PyStr.rstrip_with p s.
Proof.
  destruct s as [|c s]; [done|]. simpl.
  destruct (p c) eqn:E.
  - intros H. pose proof (lstrip_with_length p s) as Hl.
    rewrite H in Hl. simpl in Hl. lia.
  - intros _. rewrite andb_false_r. simpl. by rewrite E.
Qed.

Lemma strip_with_idem p s :
  PyStr.strip_with p (PyStr.strip_with p s) = PyStr.strip_with p s.
Proof.
  unfold PyStr.strip_with.
  rewrite (lstrip_rstrip_with p (PyStr.lstrip_with p s)) by apply lstrip_with_idem.
  apply rstrip_with_idem.
Qed.

(** A text that trimming leaves as it is has nothing to trim at either
    end. *)
Lemma strip_with_fixed p s :
  PyStr.strip_with p s = s →
  PyStr.lstrip_with p s = s ∧ PyStr.rstrip_with p s = s.
Proof.
  unfold PyStr.strip_with. intros H.
  assert (PyStr.lstrip_with p s = s) as Hl.
  { destruct s as [|c s]; [done|]. simpl in *.
    destruct (p c); [|done].
    pose proof (rstrip_with_length p (PyStr.lstrip_with p s)) as H1.
    pose proof (lstrip_with_length p s) as H2.
    rewrite H in H1. simpl in H1. lia. }
  split; [done|]. by rewrite Hl in H.
Qed.

Lemma strip_with_all p s : Py.all_chars p s = true → PyStr.strip_with p s = EmptyString.
Proof.
  intros H. unfold PyStr.strip_with. by rewrite (lstrip_with_all p s H).
Qed.

(** Trimming a text that stands between two runs of the characters to
    trim. *)
Lemma strip_with_between p l s r :
  Py.all_chars p l = true → Py.all_chars p r = true →
  PyStr.strip_with p (l +:+ s +:+ r) = PyStr.strip_with p s.
Proof.
  intros Hl Hr. unfold PyStr.strip_with.
  rewrite lstrip_with_app, (lstrip_with_all p l Hl). simpl.
  rewrite lstrip_with_app.
  destruct (PyStr.is_empty (PyStr.lstrip_with p s)) eqn:E.
  - rewrite (is_empty_true _ E). by rewrite (lstrip_with_all p r Hr).
  - by rewrite rstrip_with_app, (rstrip_with_all p r Hr).
Qed.

Lemma substring_prefix (m t : string) :
  String.substring 0 (String.length m) (m +:+ t) = m.
Proof.
  induction m as [|c m IH]; [by destruct t|].
  rewrite string_app_cons. simpl. by rewrite IH.
Qed.

Lemma slice_2_m2_wrapped (o1 o2 c1 c2 : ascii) (m : string) :
  PyStr.slice_2_m2 (String o1 (String o2 (m +:+ String c1 (String c2 EmptyString)))) = m.
Proof.
  unfold PyStr.slice_2_m2. cbn [String.length String.substring].
  rewrite string_app_length. cbn [String.length].
  replace (S (S (String.length m + 2)) - 4) with (String.length m) by lia.
  apply substring_prefix.
Qed.

(** ** The normalizer on a well-formed token *)

(** X2: the normal form of a token, whatever the token, has no blank at
    either end: trimming it again changes nothing, neither at the left
    nor at the right. *)
Theorem unwrap_token_trimmed (token : string) :
  PyStr.strip (_unwrap_token token) = _unwrap_token token
  ∧ PyStr.lstrip_with PyStr.is_space (_unwrap_token token) = _unwrap_token token
  ∧ PyStr.rstrip_with PyStr.is_space (_unwrap_token token) = _unwrap_token token.
Proof.
  assert (PyStr.strip (_unwrap_token token) = _unwrap_token token) as H.
  { unfold _unwrap_token, PyStr.strip. apply strip_with_idem. }
  split; [done|]. by apply strip_with_fixed.
Qed.

Lemma strip_token_wrapped l o1 o2 m c1 c2 r :
  blank l = true → blank r = true →
  PyStr.is_space o1 = false → PyStr.is_space c2 = false →
  PyStr.strip (l +:+ String o1 (String o2 (m +:+ String c1 (String c2 r))))
  = String o1 (String o2 (m +:+ String c1 (String c2 EmptyString))).
Proof.
  intros Hl Hr Ho Hc. unfold PyStr.strip.
  replace (String o1 (String o2 (m +:+ String c1 (String c2 r))))
    with (String o1 (String o2 (m +:+ String c1 (String c2 EmptyString))) +:+ r).
  2:{ by rewrite !string_app_cons, string_app_assoc. }
  rewrite strip_with_between by done.
  unfold PyStr.strip_with. simpl PyStr.lstrip_with. rewrite Ho.
  change (String o1 (String o2 (m +:+ String c1 (String c2 EmptyString))))
    with ((String o1 (String o2 EmptyString)) +:+ (m +:+ String c1 (String c2 EmptyString))).
  rewrite <- string_app_assoc.
  replace (String c1 (String c2 EmptyString))
    with (String c1 EmptyString +:+ String c2 EmptyString) by done.
  rewrite <- string_app_assoc.
  rewrite rstrip_with_app. simpl. by rewrite Hc.
Qed.

Lemma lstrip_with_fixed_app p s t :
  PyStr.lstrip_with p s = s → PyStr.lstrip_with p t = t →
  PyStr.lstrip_with p (s +:+ t) = s +:+ t.
Proof.
  intros Hs Ht. rewrite lstrip_with_app, Hs, Ht.
  destruct s; reflexivity.
Qed.

Lemma rstrip_with_fixed_app p s t :
  PyStr.rstrip_with p s = s → PyStr.rstrip_with p t = t →
  PyStr.rstrip_with p (s +:+ t) = s +:+ t.
Proof.
  intros Hs Ht. rewrite rstrip_with_app, Hs, Ht.
  destruct t; [|reflexivity]. simpl. by rewrite append_nil_r.
Qed.

(** A run of blanks has no dash to trim. *)
Lemma blank_no_dash s :
  blank s = true →
  PyStr.lstrip_with PyStr.is_dash s = s ∧ PyStr.rstrip_with PyStr.is_dash s = s.
Proof.
  unfold blank. induction s as [|c s IH]; [done|]. simpl.
  intros [Hc Hs]%andb_true_iff. destruct (IH Hs) as [_ Hr].
  assert (PyStr.is_dash c = false) as Hd.
  { destruct c as [[] [] [] [] [] [] [] []]; done. }
  by rewrite Hd, Hr, andb_false_r.
Qed.

(** X1: the normalizer gives back the inner text of a token of the
    template syntax.  For a token made of two opening characters, trim
    markers, blanks, the inner text [e], blanks, trim markers and two
    closing characters, with blanks around the whole, [_unwrap_token]
    gives [e], provided that [e] has neither a blank nor a dash at
    either end and that the token starts and ends with a character that
    is no blank.  Which characters open and close the token is not looked
    at. *)
Theorem unwrap_wrapped_token (l r d1 b1 e b2 d2 : string) (o1 o2 c1 c2 : ascii) :
  blank l = true → blank r = true →
  dashes d1 = true → dashes d2 = true →
  blank b1 = true → blank b2 = true →
  PyStr.is_space o1 = false → PyStr.is_space c2 = false →
  PyStr.strip e = e → PyStr.strip_dash e = e →
  _unwrap_token (wrap_token l o1 o2 d1 b1 e b2 d2 c1 c2 r) = e.
Proof.
  intros Hl Hr Hd1 Hd2 Hb1 Hb2 Ho Hc He Hed.
  unfold _unwrap_token, wrap_token.
  replace (d1 +:+ b1 +:+ e +:+ b2 +:+ d2 +:+ String c1 (String c2 r))
    with ((d1 +:+ (b1 +:+ e +:+ b2) +:+ d2) +:+ String c1 (String c2 r))
    by by rewrite !string_app_assoc.
  rewrite strip_token_wrapped by done.
  rewrite slice_2_m2_wrapped.
  unfold PyStr.strip_dash. rewrite strip_with_between by done.
  destruct (strip_with_fixed _ _ Hed) as [Hdl Hdr].
  destruct (blank_no_dash b1 Hb1) as [Hl1 Hr1].
  destruct (blank_no_dash b2 Hb2) as [Hl2 Hr2].
  assert (PyStr.strip_with PyStr.is_dash (b1 +:+ e +:+ b2) = b1 +:+ e +:+ b2) as ->.
  { unfold PyStr.strip_with.
    rewrite (lstrip_with_fixed_app _ b1 (e +:+ b2));
      [|done|by apply lstrip_with_fixed_app].
    apply rstrip_with_fixed_app; [done|by apply rstrip_with_fixed_app]. }
  unfold PyStr.strip in *. by rewrite strip_with_between.
Qed.

(** A control token with trim markers and a dash inside the text. *)
Lemma unwrap_wrapped_token_witness :
  _unwrap_token (wrap_token " " "{" "%" "-" " " "if a - b" "  " "-" "%" "}" " ")
  = "if a - b".
Proof. by apply unwrap_wrapped_token. Defined.

(** ** The invocation of a component, in general *)

Lemma has_space_split op params :
  PyStr.has_space op = false →
  PyStr.has_space (op +:+ " " +:+ params) = true
  ∧ PyStr.before_space (op +:+ " " +:+ params) = op
  ∧ PyStr.after_space (op +:+ " " +:+ params) = params.
Proof.
  unfold PyStr.has_space, PyStr.before_space, PyStr.after_space.
  induction op as [|c op IH]; [done|].
  rewrite string_app_cons. simpl. case_decide; [done|].
  intros Hop. destruct (IH Hop) as (-> & -> & ->). done.
Qed.

Lemma before_space_no_space op :
  PyStr.has_space op = false → PyStr.before_space op = op.
Proof.
  unfold PyStr.has_space, PyStr.before_space.
  induction op as [|c op IH]; [done|]. simpl. case_decide; [done|].
  intros Hop. by rewrite IH.
Qed.

(** X3: a component invocation whose inner text is the name [op], a
    blank and the text [params] puts one line into the pending lines and
    touches nothing else: the line appends [op.render(dict(params))] in
    the direct mode and [await op.arender(dict(params))] in the other,
    with everything after the first blank as the arguments of [dict],
    as it is.  When the inner text is the name alone, the component gets
    [locals()]. *)
Theorem component_token_line (sync : bool) (tk op params : string)
    (st : TemplateCore) :
  is_component_token tk = true →
  PyStr.has_space op = false →
  (_unwrap_token tk = op +:+ " " +:+ params →
   on_token sync tk st
   = (Ok tt,
      set_buffer
        (_buffer st
         ++ [if sync
             then "append_result(" +:+ op +:+ ".render(dict(" +:+ params +:+ ")))"
             else "append_result(await " +:+ op +:+ ".arender(dict(" +:+ params
                  +:+ ")))"]) st))
  ∧ (_unwrap_token tk = op →
     on_token sync tk st
     = (Ok tt,
        set_buffer
          (_buffer st
           ++ [if sync
               then "append_result(" +:+ op +:+ ".render(locals()))"
               else "append_result(await " +:+ op +:+ ".arender(locals()))"]) st)).
Proof.
  intros Hcomp Hop. unfold is_component_token in Hcomp.
  apply andb_true_iff in Hcomp as [Hcomp Hkw].
  apply andb_true_iff in Hcomp as [Hcomp Hend].
  apply andb_true_iff in Hcomp as [Hcomp H3].
  apply andb_true_iff in Hcomp as [H1 H2].
  apply negb_true_iff in H1, H2, Hend, Hkw.
  apply bool_decide_eq_false in Hkw.
  assert (∀ o, PyStr.before_space (_unwrap_token tk) = o →
            bool_decide (o = "if") || bool_decide (o = "for")
            || bool_decide (o = "while") = false
            ∧ bool_decide (o = "else") || bool_decide (o = "elif") = false) as Hno.
  { intros o <-. split.
    - apply orb_false_intro; [apply orb_false_intro|];
        apply bool_decide_eq_false; intros E; apply Hkw; rewrite E;
        apply list_elem_of_In; simpl; auto.
    - apply orb_false_intro;
        apply bool_decide_eq_false; intros E; apply Hkw; rewrite E;
        apply list_elem_of_In; simpl; auto 10. }
  unfold on_token, _on_special_token. rewrite H1, H2, H3, Hend. cbv zeta.
  split; intros Hinner.
  - destruct (has_space_split op params Hop) as (Hs & Hb & Ha).
    assert (PyStr.before_space (_unwrap_token tk) = op) as Hbs by by rewrite Hinner.
    destruct (Hno op Hbs) as [Hn1 Hn2]. rewrite Hbs, Hn1, Hn2.
    unfold _make_context. rewrite Hinner, Hs, Ha.
    destruct sync; unfold buffer_append, modify; rewrite !string_app_assoc;
      reflexivity.
  - assert (PyStr.before_space (_unwrap_token tk) = op) as Hbs
      by by rewrite Hinner; apply before_space_no_space.
    destruct (Hno op Hbs) as [Hn1 Hn2]. rewrite Hbs, Hn1, Hn2.
    unfold _make_context. rewrite Hinner, Hop.
    by destruct sync.
Qed.

(** Two keyword arguments, one with a blank inside. *)
Lemma component_token_line_witness :
  on_token false "{% comp x=5, y='a b' %}" (TemplateCore_init EmptyString)
  = (Ok tt,
     set_buffer ["append_result(await comp.arender(dict(x=5, y='a b')))"]
       (TemplateCore_init EmptyString)).
Proof.
  exact (proj1 (component_token_line false "{% comp x=5, y='a b' %}" "comp"
                  "x=5, y='a b'" (TemplateCore_init EmptyString)
                  eq_refl eq_refl) eq_refl).
Defined.

(** ** The outcome of [compile] *)

(** X4: on an instance with no block open, the tokens decide how
    [compile] ends, in both modes alike: with the error of the tokenizer
    when the text does not split into tokens; with the failure of the
    block stack when a closer finds no block open or another block than
    its own; with the syntax error that carries the open blocks when
    some are left at the end; and with success in every other case.  So
    [else] and [elif] never make [compile] fail, with or without a block
    around them, and [compile] raises nothing else. *)
Theorem compile_outcome (sync : bool) (st : TemplateCore) :
  _ops_stack st = [] →
  (compile sync st).1
  = match split_template_tokens (text st) with
    | Raise e => Raise e
    | Ok toks =>
        match block_stack [] toks with
        | Raise e => Raise e
        | Ok [] => Ok tt
        | Ok (op :: stack) => Raise (SyntaxError (op :: stack))
        end
    end.
Proof.
  intros Hst.
  destruct (split_template_tokens (text st)) as [toks|e] eqn:Hsplit.
  - pose proof (compile_block_stack sync st toks Hsplit) as H.
    destruct (block_stack [] toks) as [[|op stack]|e].
    + by apply H.
    + by rewrite H, Hst.
    + by apply H.
  - by rewrite compile_unfold, Hsplit.
Qed.

(** An [else] with no block open is accepted; a block left open and a
    delimiter with no end are not. *)
Lemma compile_outcome_witness :
  (compile true (TemplateCore_init "{% else %}a{% if x %}b{% endif %}")).1 = Ok tt
  ∧ (compile false (TemplateCore_init "{% if x %}{% for y in z %}a{% endfor %}")).1
    = Raise (SyntaxError ["if"])
  ∧ (compile true (TemplateCore_init "a{{ b")).1 = Raise LexicalError.
Proof.
  split; [|split].
  - exact (compile_outcome true
             (TemplateCore_init "{% else %}a{% if x %}b{% endif %}") eq_refl).
  - exact (compile_outcome false
             (TemplateCore_init "{% if x %}{% for y in z %}a{% endfor %}") eq_refl).
  - exact (compile_outcome true (TemplateCore_init "a{{ b") eq_refl).
Defined.

(** What the end of [compile] leaves when it returns. *)
Lemma compile_end_ok st st1 :
  compile_end st = (Ok tt, st1) →
  _ops_stack st = [] ∧ _buffer st1 = [] ∧ _ops_stack st1 = []
  ∧ ∃ b0 b, _builder st = Some b0 ∧ _builder st1 = Some b
            ∧ b_indent_level b0 = S (b_indent_level b)
            ∧ ∃ body, b_code b = body ++ [(b_indent_level b0, return_line)].
Proof.
  unfold compile_end. rewrite bind_unfold. simpl.
  destruct (_ops_stack st) as [|op stack] eqn:Hstack; [|done].
  destruct (_builder st) as [b0|] eqn:Hb.
  2:{ unfold _flush. rewrite !bind_unfold. simpl.
      destruct (_buffer st) as [|l ls] eqn:Hbuf; simpl.
      - unfold add_line, on_builder. simpl. rewrite bind_unfold. simpl.
        by rewrite Hb.
      - rewrite !bind_unfold. unfold add_line at 1, on_builder. by rewrite Hb. }
  method_step Hb. method_step Hb.
  unfold dedent, on_builder, builder_dedent. simpl.
  destruct (b_indent_level b0) as [|n] eqn:Hlvl; [done|].
  intros [= <-]. simpl. split; [done|]. split; [done|]. split; [done|].
  eexists _, _. split; [done|]. split; [done|]. simpl. split; [done|].
  eexists. rewrite Hlvl. reflexivity.
Qed.

Lemma compile_ok_inv sync st st1 :
  compile sync st = (Ok tt, st1) →
  ∃ toks st', split_template_tokens (text st) = Ok toks
    ∧ for_each (on_token sync) toks (set_builder (get_base_builder sync) st)
      = (Ok tt, st')
    ∧ compile_end st' = (Ok tt, st1).
Proof.
  rewrite compile_unfold.
  destruct (split_template_tokens (text st)) as [toks|e]; [|done].
  unfold compile_tokens. rewrite bind_unfold.
  destruct (for_each (on_token sync) toks _) as [[[]|e] st'] eqn:Hrun; [|done].
  intros H. exists toks, st'. split; [done|]. split; [done|]. exact H.
Qed.

(** When [compile] returns, no line is pending, no block is open, and
    the builder is there. *)
Lemma compile_ok_pending (sync : bool) (st : TemplateCore) :
  (compile sync st).1 = Ok tt →
  _buffer (compile sync st).2 = []
  ∧ _ops_stack (compile sync st).2 = []
  ∧ is_Some (_builder (compile sync st).2).
Proof.
  intros Hok.
  destruct (compile sync st) as [[[]|e] st1] eqn:Hc; [|done]. simpl in *.
  destruct (compile_ok_inv sync st st1 Hc) as (toks & st' & Hsplit & Hrun & Hend).
  destruct (compile_end_ok st' st1 Hend)
    as (_ & Hbuf & Hstack & b0 & b & _ & Hb & _).
  split; [done|]. split; [done|]. by exists b.
Qed.

(** X5: when [compile] returns, nothing is left pending in the
    instance: the pending lines and the block stack are empty, the
    builder is one of the mode asked for, its last line is the line
    that returns the joined result, one level deeper than the depth the
    builder ends at, and that depth is zero when no block was open at
    the start. *)
Theorem compile_leaves_clean (sync : bool) (st : TemplateCore) :
  (compile sync st).1 = Ok tt →
  _buffer (compile sync st).2 = []
  ∧ _ops_stack (compile sync st).2 = []
  ∧ ∃ b body, _builder (compile sync st).2 = Some b
      ∧ b_sync b = sync
      ∧ b_code b = body ++ [(S (b_indent_level b), return_line)]
      ∧ (_ops_stack st = [] → b_indent_level b = 0).
Proof.
  intros Hok.
  pose proof (compile_slots sync st) as (_ & _ & _ & Hsync).
  destruct (compile sync st) as [[[]|e] st1] eqn:Hc; [|done]. simpl in *.
  destruct (compile_ok_inv sync st st1 Hc) as (toks & st' & Hsplit & Hrun & Hend).
  destruct (compile_end_ok st' st1 Hend)
    as (Hs' & Hbuf & Hstack & b0 & b & Hb0 & Hb & Hlvl & body & Hcode).
  split; [done|]. split; [done|].
  exists b, body. split; [done|]. rewrite Hb in Hsync. simpl in Hsync.
  split; [congruence|]. split; [by rewrite Hcode, Hlvl|].
  intros Hst.
  assert (block_inv [] [] (set_builder (get_base_builder sync) st)) as Hinv.
  { eexists. split; [done|]. by split. }
  pose proof (for_each_block_stack sync toks [] [] _ Hinv) as H.
  destruct (block_stack [] toks) as [s|e].
  - destruct H as (st'' & Hrun' & b' & Hb' & Hs'' & Hlvl').
    rewrite Hrun in Hrun'. simplify_eq. simpl in *.
    rewrite Hs' in Hs''. subst s. simpl in *. lia.
  - destruct H as (st'' & Hrun' & _); [done|]. rewrite Hrun in Hrun'. done.
Qed.

(** A block with a literal and an eval token inside. *)
Lemma compile_leaves_clean_witness :
  _buffer (compile true (TemplateCore_init "a{% if x %}b{{ c }}{% endif %}")).2 = []
  ∧ _ops_stack (compile true (TemplateCore_init "a{% if x %}b{{ c }}{% endif %}")).2
    = [].
Proof.
  destruct (compile_leaves_clean true
              (TemplateCore_init "a{% if x %}b{{ c }}{% endif %}") eq_refl)
    as (H1 & H2 & _).
  by split.
Defined.

(** X7: [compile] never resets the block stack of the instance.  On a
    text whose blocks are left open it raises the syntax error with the
    stack that the instance had before the call followed by the open
    blocks, and leaves that stack in the instance; so a second call, of
    either mode, reports the open blocks twice. *)
Theorem compile_retry_unclosed (sync : bool) (st : TemplateCore)
    (toks : list string) (op : string) (stack : list string) :
  split_template_tokens (text st) = Ok toks →
  block_stack [] toks = Ok (op :: stack) →
  (compile sync st).1 = Raise (SyntaxError (_ops_stack st ++ op :: stack))
  ∧ _ops_stack (compile sync st).2 = _ops_stack st ++ op :: stack
  ∧ ∀ sync',
      (compile sync' (compile sync st).2).1
      = Raise (SyntaxError ((_ops_stack st ++ op :: stack) ++ op :: stack)).
Proof.
  intros Hsplit Hstack.
  assert (∀ sync st, split_template_tokens (text st) = Ok toks →
            (compile sync st).1 = Raise (SyntaxError (_ops_stack st ++ op :: stack))
            ∧ _ops_stack (compile sync st).2 = _ops_stack st ++ op :: stack) as Hone.
  { clear st Hsplit sync. intros sync st Hsplit.
    rewrite compile_unfold, Hsplit. unfold compile_tokens.
    assert (block_inv (_ops_stack st) [] (set_builder (get_base_builder sync) st))
      as Hinv.
    { eexists. split; [done|]. split; [|done]. simpl. by rewrite app_nil_r. }
    pose proof (for_each_block_stack sync toks _ _ _ Hinv) as H.
    rewrite Hstack in H. destruct H as (st' & Hrun & b & Hb & Hs & Hlvl).
    rewrite (bind_ok _ _ _ _ _ Hrun). unfold compile_end.
    rewrite bind_unfold. simpl. rewrite Hs.
    by destruct (_ops_stack st). }
  destruct (Hone sync st Hsplit) as [H1 H2]. split; [done|]. split; [done|].
  intros sync'.
  pose proof (compile_slots sync st) as (Ht & _).
  destruct (Hone sync' (compile sync st).2) as [H3 _]; [by rewrite Ht|].
  by rewrite H3, H2.
Qed.

(** One [if] left open, compiled twice. *)
Lemma compile_retry_unclosed_witness :
  let st1 := (compile true (TemplateCore_init "{% if a %}x")).2 in
  (compile true (TemplateCore_init "{% if a %}x")).1 = Raise (SyntaxError ["if"])
  ∧ (compile true st1).1 = Raise (SyntaxError ["if"; "if"]).
Proof.
  destruct (compile_retry_unclosed true (TemplateCore_init "{% if a %}x")
              ["{% if a %}"; "x"] "if" [] eq_refl eq_refl) as (H1 & _ & H3).
  split; [exact H1|exact (H3 true)].
Defined.

(** ** The script and the cached routines *)

(** [compile] reads the text, the pending lines and the block stack of
    the instance, and nothing else of it. *)
Lemma compile_same_start sync st st' :
  text st = text st' → _buffer st = _buffer st' → _ops_stack st = _ops_stack st' →
  (compile sync st).1 = (compile sync st').1
  ∧ _builder (compile sync st).2 = _builder (compile sync st').2.
Proof.
  intros Ht Hb Hs.
  pose proof (compile_slots sync st) as (_ & _ & _ & Hs1).
  pose proof (compile_slots sync st') as (_ & _ & _ & Hs2).
  rewrite !compile_unfold in *. rewrite <- Ht in *.
  destruct (split_template_tokens (text st)) as [toks|e]; [|done].
  destruct (related_compile_tokens eq (λ x, eq_refl) sync sync toks toks)
    with (st := set_builder (get_base_builder sync) st)
         (st' := set_builder (get_base_builder sync) st') as [Hres Hrel].
  { clear. induction toks; constructor; [|done]. left. auto. }
  { apply state_rel_base; [done|]. rewrite Hb. clear. by induction (_buffer st'); constructor. }
  split; [done|]. destruct Hrel as (_ & _ & Hbld).
  destruct (_builder (compile_tokens sync toks _).2) as [b|],
           (_builder (compile_tokens sync toks
                        (set_builder (get_base_builder sync) st')).2) as [b'|];
    inversion Hbld as [? ? [Hlvl Hcode]|]; subst; [|done].
  apply Forall2_eq_pairs in Hcode. simpl in Hs1, Hs2.
  destruct b, b'; simpl in *. congruence.
Qed.

Lemma get_script_unfold f sync st :
  get_script f sync st
  = match compile sync st with
    | (Raise e, st1) => (Raise e, st1)
    | (Ok _, st1) =>
        match _builder st1 with
        | Some b => (Ok (f b), st1)
        | None => (Raise AttributeError, st1)
        end
    end.
Proof.
  unfold get_script. rewrite bind_unfold.
  destruct (compile sync st) as [[[]|e] st1]; [|done].
  unfold the_builder. rewrite !bind_unfold. simpl.
  by destruct (_builder st1).
Qed.

(** X6: [get_script] compiles afresh and leaves the text and the two
    cached routines as they are.  On an instance with no line pending and
    no block open, when the call returns, a second call gives the same
    script, and a render of either mode gives what it gives without the
    call. *)
Theorem get_script_leaves_render (builder_str : CodeBuilder → string)
    (h : Host) (fuel : nat) (sync sync' : bool) (ctx : ChainMap)
    (st : TemplateCore) (s : string) :
  _buffer st = [] → _ops_stack st = [] →
  (get_script builder_str sync' st).1 = Ok s →
  let st1 := (get_script builder_str sync' st).2 in
  text st1 = text st
  ∧ cached_render_code st1 = cached_render_code st
  ∧ cached_arender_code st1 = cached_arender_code st
  ∧ (get_script builder_str sync' st1).1 = Ok s
  ∧ (render_mode h fuel sync ctx st1).1 = (render_mode h fuel sync ctx st).1.
Proof.
  intros Hbuf Hstack Hok st1. subst st1.
  rewrite get_script_unfold in *.
  pose proof (compile_slots sync' st) as (Ht & Hr & Ha & _).
  pose proof (compile_ok_pending sync' st) as Hclean.
  destruct (compile sync' st) as [[[]|e] st1] eqn:Hc; [|done]. simpl in *.
  destruct Hclean as (Hbuf1 & Hstack1 & b & Hb); [done|].
  rewrite Hb in *. simpl in *. injection Hok as <-.
  split; [done|]. split; [done|]. split; [done|]. split.
  - rewrite get_script_unfold.
    destruct (compile_same_start sync' st1 st) as [Hres Hbld]; [congruence..|].
    rewrite Hc in Hres, Hbld. simpl in *.
    destruct (compile sync' st1) as [[[]|e] st2]; [|done]. simpl in *.
    by rewrite Hbld, Hb.
  - destruct (cached_code sync st) as [code|] eqn:Hcode.
    + rewrite (render_mode_hit h fuel sync ctx st code Hcode).
      rewrite (render_mode_hit h fuel sync ctx st1 code); [done|].
      destruct sync; simpl in *; congruence.
    + rewrite (render_mode_miss h fuel sync ctx st Hcode).
      rewrite (render_mode_miss h fuel sync ctx st1)
        by (destruct sync; simpl in *; congruence).
      destruct (compile_same_start sync st1 st) as [Hres Hbld]; [congruence..|].
      destruct (compile sync st1) as [[[]|e1] st2],
               (compile sync st) as [[[]|e2] st3]; simpl in *; simplify_eq; [|done].
      rewrite Hbld. destruct (_builder st3) as [b3|]; [|done].
      by destruct (get_render_function b3).
Qed.

(** The script of the other mode asked for twice, before the first
    render. *)
Lemma get_script_leaves_render_witness :
  let st := TemplateCore_init "a{{ b }}" in
  let show := λ b : CodeBuilder, PyStr.join ((λ l, l.2) <$> b_code b) in
  let st1 := (get_script show false st).2 in
  (get_script show false st1).1
  = Ok "append_result('a')append_result(b)return ''.join(map(str, result))"
  ∧ (render_mode (plain_host ∅) 4 true (SafeChainMapContext [{[ "b" := VInt 1 ]}]) st1).1
    = (render_mode (plain_host ∅) 4 true (SafeChainMapContext [{[ "b" := VInt 1 ]}]) st).1.
Proof.
  pose (st := TemplateCore_init "a{{ b }}").
  pose (show := λ b : CodeBuilder, PyStr.join ((λ l, l.2) <$> b_code b)).
  destruct (get_script_leaves_render show (plain_host ∅) 4 true false
              (SafeChainMapContext [{[ "b" := VInt 1 ]}]) st
              "append_result('a')append_result(b)return ''.join(map(str, result))"
              eq_refl eq_refl eq_refl) as (_ & _ & _ & H1 & H2).
  split; [exact H1|exact H2].
Defined.

(** What one render leaves of the instance. *)
Lemma render_mode_slots h fuel sync ctx st :
  text (render_mode h fuel sync ctx st).2 = text st
  ∧ ∀ sync0 code, cached_code sync0 st = Some code →
      cached_code sync0 (render_mode h fuel sync ctx st).2 = Some code.
Proof.
  destruct (cached_code sync st) as [code0|] eqn:Hc.
  - by rewrite (render_mode_hit h fuel sync ctx st code0 Hc).
  - rewrite (render_mode_miss h fuel sync ctx st Hc).
    pose proof (compile_slots sync st) as (Ht & Hr & Ha & _).
    destruct (compile sync st) as [[[]|e] st1]; simpl in *.
    2:{ split; [done|]. intros [] code; simpl; congruence. }
    destruct (_builder st1) as [b|].
    2:{ split; [done|]. intros [] code; simpl; congruence. }
    destruct (get_render_function b) as [code1|].
    2:{ split; [done|]. intros [] code; simpl; congruence. }
    simpl. split; [by destruct sync|].
    intros sync0 code H0.
    destruct sync, sync0; simpl in *; congruence.
Qed.

(** X11: whatever renders follow, of either mode and with whatever
    environment, they change neither the text nor the default bindings of
    the template, and a routine that is in its slot stays there: it is
    neither dropped nor replaced. *)
Theorem renders_keep_routines (h : Host) (self0 self : Template) :
  rendered_from h self0 self →
  text (core self) = text (core self0)
  ∧ context self = context self0
  ∧ ∀ sync code, cached_code sync (core self0) = Some code →
      cached_code sync (core self) = Some code.
Proof.
  induction 1 as [|self sync fuel ctx Hfrom (Ht & Hctx & Hcode)]; [done|].
  rewrite Template_render_mode_eq. cbn [snd core context].
  destruct (render_mode_slots h fuel sync (render_context h self ctx) (core self))
    as [Ht' Hcode'].
  split; [congruence|]. split; [done|].
  intros sync0 code H0. by apply Hcode', Hcode.
Qed.

(** A render of the other mode after the text has been assigned: the
    direct-mode routine is still the one of the first text. *)
Lemma renders_keep_routines_witness :
  let h := plain_host ∅ in
  let self0 := (Template_render h 3 (Template_init "hello" None) None).2 in
  let self := (Template_arender h 3 (set_template_text "bye" self0) None).2 in
  cached_render_code (core self) = cached_render_code (core self0)
  ∧ (Template_render h 3 self None).1 = Ok (Some (VStr "hello"))
  ∧ (Template_arender h 3 self None).1 = Ok (Some (VStr "bye")).
Proof.
  pose (h := plain_host ∅).
  pose (self0 := (Template_render h 3 (Template_init "hello" None) None).2).
  pose (self1 := set_template_text "bye" self0).
  destruct (renders_keep_routines h self1
              (Template_render_mode h 3 false self1 None).2) as (_ & _ & H).
  { apply rendered_step, rendered_refl. }
  split; [|split; reflexivity].
  exact (H true _ eq_refl).
Defined.

(** ** Writes and deletions in the environment of a render *)

(** X12: in the environment of a render, a name reads as the value
    just written to it, and a write leaves the other names as they read
    before; deleting the name written uncovers what the caller's mapping
    and the default bindings give for it and leaves the other names
    alone; and a name that only those two layers bind cannot be deleted
    (the [KeyError]), though it can be read. *)
Theorem render_context_write_delete (h : Host) (self : Template)
    (ctx : option (gmap string value)) (key : string) (v : value) :
  let env := render_context h self ctx in
  let below := match ctx with Some c => [c; context self] | None => [context self] end in
  chain_getitem (chain_setitem key v env) key = Some v
  ∧ (∀ k, k ≠ key →
       chain_getitem (chain_setitem key v env) k = chain_getitem env k)
  ∧ (∃ env', chain_delitem key (chain_setitem key v env) = Some env'
       ∧ chain_getitem env' key = lookup_layers below key
       ∧ ∀ k, k ≠ key → chain_getitem env' k = chain_getitem env k)
  ∧ (get_clean_global_builtins h !! key = None →
       chain_delitem key env = None
       ∧ chain_getitem env key = lookup_layers below key).
Proof.
  assert (maps (render_context h self ctx)
          = get_clean_global_builtins h
            :: match ctx with Some c => [c; context self] | None => [context self] end)
    as Hmaps by by destruct ctx.
  cbv zeta. unfold chain_getitem, chain_setitem, chain_delitem. rewrite Hmaps.
  cbn [maps lookup_layers]. split_and!.
  - by rewrite lookup_insert_eq.
  - intros k Hk. by rewrite lookup_insert_ne.
  - rewrite lookup_insert_eq. eexists. split; [done|]. cbn [maps lookup_layers].
    split.
    + by rewrite lookup_delete_eq.
    + intros k Hk. by rewrite lookup_delete_ne, lookup_insert_ne.
  - intros ->. done.
Qed.

(** ** The clients of [Loader] and of its subclasses *)

Lemma class_getattr_singleton {A} (k : string) (v : A) (order : list string) :
  k ∈ order → class_getattr {[ k := v ]} order = Some v.
Proof.
  induction order as [|c order IH]; [by intros ?%elem_of_nil|].
  intros Hin. simpl. destruct (decide (c = k)) as [->|Hne].
  - by rewrite lookup_singleton_eq.
  - rewrite lookup_singleton_ne by done. apply IH.
    apply elem_of_cons in Hin as [->|]; done.
Qed.

(** X13: the class attribute is read through the resolution order and
    written on the class of the call.  From the state in which the module
    was loaded, a client made by a call on [Loader] is the one that a
    later call on a subclass uses, whatever keyword arguments that call
    has; a client made by a call on a subclass is stored on the subclass
    alone, so that a later call on [Loader] makes another client, from
    its own keyword arguments. *)
Theorem fetch_client_inheritance (w : World) (sub url url' : string)
    (kw kw' : Kwargs w) (c c' : Client w) :
  sub ≠ "Loader" → "Loader" ∈ bases w sub →
  new_client w kw = Ok c → new_client w kw' = Ok c' →
  (let st1 := (fetch w "Loader" url kw (classes_init w)).2 in
   fetch w sub url' kw' st1 = (make w sub url' (client_get w c url'), st1))
  ∧ (let st1 := (fetch w sub url kw (classes_init w)).2 in
     attr_client st1 = <[sub := Some c]> {[ "Loader" := None ]}
     ∧ (fetch w "Loader" url' kw' st1).1
       = make w "Loader" url' (client_get w c' url')
     ∧ attr_client (fetch w "Loader" url' kw' st1).2
       = <["Loader" := Some c']> (<[sub := Some c]> {[ "Loader" := None ]})).
Proof.
  intros Hsub Hin Hkw Hkw'. split.
  - cbv zeta.
    assert (fetch w "Loader" url kw (classes_init w)
            = (make w "Loader" url (client_get w c url),
               {| attr_client := {[ "Loader" := Some c ]};
                  attr_aclient := {[ "Loader" := None ]} |})) as ->.
    { unfold fetch. cbn [classes_init attr_client attr_aclient mro class_getattr].
      rewrite lookup_singleton_eq, Hkw. by rewrite insert_singleton_eq. }
    cbn [snd]. apply fetch_found. cbn [attr_client mro class_getattr].
    rewrite lookup_singleton_ne by done.
    by apply class_getattr_singleton.
  - cbv zeta.
    assert (fetch w sub url kw (classes_init w)
            = (make w sub url (client_get w c url),
               {| attr_client := <[sub := Some c]> {[ "Loader" := None ]};
                  attr_aclient := {[ "Loader" := None ]} |})) as ->.
    { unfold fetch. cbn [classes_init attr_client attr_aclient mro class_getattr].
      rewrite lookup_singleton_ne by done.
      rewrite (class_getattr_singleton "Loader" None (bases w sub) Hin).
      by rewrite Hkw. }
    cbn [snd attr_client]. split; [done|].
    unfold fetch. cbn [attr_client attr_aclient mro class_getattr].
    rewrite lookup_insert_ne by done. rewrite lookup_singleton_eq, Hkw'.
    by split.
Qed.

(** [Template] after [Loader]. *)
Lemma fetch_client_inheritance_witness :
  let w := number_world in
  let st1 := (fetch w "Loader" "u" 5 (classes_init w)).2 in
  fetch w "Template" "v" 7 st1 = (make w "Template" "v" (client_get w 5 "v"), st1).
Proof.
  refine (proj1 (fetch_client_inheritance number_world "Template" "u" "v" 5 7 5 7
                   _ _ eq_refl eq_refl)).
  - done.
  - apply list_elem_of_In. simpl. auto.
Defined.

(** X14: when a call makes the client, the client is on the class
    before the request is sent: the call gives what the request gives,
    its exception included, and in either case the class keeps the
    client, which every later call on the class uses, whatever its
    keyword arguments.  The same holds for [afetch] and its client. *)
Theorem fetch_failed_request_keeps_client (w : World) (cls url : string)
    (kw : Kwargs w) (st : classes w) (c : Client w) (a : AsyncClient w) :
  (class_getattr (attr_client st) (mro w cls) = Some None →
   new_client w kw = Ok c →
   let st1 := (fetch w cls url kw st).2 in
   (fetch w cls url kw st).1 = make w cls url (client_get w c url)
   ∧ attr_client st1 !! cls = Some (Some c)
   ∧ ∀ url' kw',
       fetch w cls url' kw' st1 = (make w cls url' (client_get w c url'), st1))
  ∧ (class_getattr (attr_aclient st) (mro w cls) = Some None →
     new_aclient w kw = Ok a →
     let st1 := (afetch w cls url kw st).2 in
     (afetch w cls url kw st).1 = make w cls url (aclient_get w a url)
     ∧ attr_aclient st1 !! cls = Some (Some a)
     ∧ ∀ url' kw',
         afetch w cls url' kw' st1 = (make w cls url' (aclient_get w a url'), st1)).
Proof.
  split; intros Hnone Hnew; cbv zeta.
  - assert (fetch w cls url kw st
            = (make w cls url (client_get w c url),
               {| attr_client := <[cls := Some c]> (attr_client st);
                  attr_aclient := attr_aclient st |})) as ->.
    { unfold fetch. by rewrite Hnone, Hnew. }
    cbn [fst snd attr_client].
    split; [done|]. split; [by rewrite lookup_insert_eq|].
    intros url' kw'. apply fetch_found.
    cbn [attr_client mro class_getattr]. by rewrite lookup_insert_eq.
  - assert (afetch w cls url kw st
            = (make w cls url (aclient_get w a url),
               {| attr_client := attr_client st;
                  attr_aclient := <[cls := Some a]> (attr_aclient st) |})) as ->.
    { unfold afetch. by rewrite Hnone, Hnew. }
    cbn [fst snd attr_aclient].
    split; [done|]. split; [by rewrite lookup_insert_eq|].
    intros url' kw'. apply afetch_found.
    cbn [attr_aclient mro class_getattr]. by rewrite lookup_insert_eq.
Qed.

(** A first request that fails, and a second one. *)
Lemma fetch_failed_request_keeps_client_witness :
  let w := flaky_world in
  let st1 := (fetch w "Loader" "down" 5 (classes_init w)).2 in
  (fetch w "Loader" "down" 5 (classes_init w)).1 = Raise ExternalError
  ∧ attr_client st1 !! "Loader" = Some (Some 5)
  ∧ fetch w "Loader" "up" 9 st1 = (make w "Loader" "up" (client_get w 5 "up"), st1).
Proof.
  destruct (fetch_failed_request_keeps_client flaky_world "Loader" "down" 5
              (classes_init flaky_world) 5 5) as [H _].
  destruct (H eq_refl eq_refl) as (H1 & H2 & H3).
  split; [exact H1|]. split; [exact H2|exact (H3 "up" 9)].
Defined.

(** ** Templates of literal and eval tokens *)




Lemma on_token_flat sync tk :
  is_flat_token tk = true → on_token sync tk = buffer_append (flat_line tk).
Proof.
  unfold is_flat_token, on_token, flat_line, flat_expr.
  destruct (PyStr.startswith "{{" (PyStr.strip tk)); [done|].
  intros [H1 H2]%negb_true_iff%orb_false_elim. by rewrite H1, H2.
Qed.

Lemma for_each_flat sync toks st :
  Forall (λ tk, is_flat_token tk = true) toks →
  for_each (on_token sync) toks st
  = (Ok tt, set_buffer (_buffer st ++ (flat_line <$> toks)) st).
Proof.
  intros H. revert st. induction H as [|tk toks Htk _ IH]; intros st.
  - simpl. rewrite app_nil_r. by destruct st.
  - cbn [for_each]. rewrite bind_unfold, (on_token_flat sync tk Htk).
    unfold buffer_append, modify. rewrite IH. simpl. by rewrite <- app_assoc.
Qed.















(** Every token of a given list has the property, by evaluation. *)
Ltac all_tokens :=
  repeat (apply Forall_cons_2; [by vm_compute|]); apply Forall_nil_2.


(** ** What a control token writes *)





(** The end of [compile] on an instance with no block open. *)
Lemma compile_end_eq st b n :
  _ops_stack st = [] → _builder st = Some b → b_indent_level b = S n →
  compile_end st
  = (Ok tt,
     {| text := text st; _buffer := []; _ops_stack := [];
        _builder :=
          Some {| b_sync := b_sync b;
                  b_code := (b_code b ++ ((λ l, (S n, l)) <$> _buffer st))
                            ++ [(S n, return_line)];
                  b_indent_level := n |};
        cached_render_code := cached_render_code st;
        cached_arender_code := cached_arender_code st |}).
Proof.
  intros Hs Hb Hlvl. unfold compile_end. rewrite bind_unfold. cbn [gets].
  rewrite Hs. method_step Hb. method_step Hb.
  erewrite dedent_eq; [|reflexivity|exact Hlvl].
  unfold set_builder, set_buffer. cbn. by rewrite Hs, Hlvl.
Qed.

(** ** A conditional *)


(** The fields of an instance that is given by its fields. *)
Ltac core_simpl :=
  cbn [text _buffer _ops_stack _builder cached_render_code cached_arender_code
       set_buffer set_builder set_ops_stack b_sync b_code b_indent_level
       get_base_builder TemplateCore_init ret for_each app].


Lemma exec_block_nil h n lvl st fr : Py.exec_block h (S n) lvl st [] fr = Py.Normal fr.
Proof. reflexivity. Qed.





Lemma load_name_push_results x vs fr :
  Py.load_name x (push_results vs fr) = Py.load_name x fr.
Proof. reflexivity. Qed.



Lemma classify_else_line : Py.classify "else:" = Py.LHeader "else".
Proof. reflexivity. Qed.





(** ** A loop over a list *)













(** ** Lines left pending by a failed [compile] *)

(** X15: [compile] starts a new builder but does not clear the pending
    lines: on an instance with no block open whose tokens are literal
    and eval tokens, it returns, and the routine starts with the lines
    that were pending before the call, ahead of the lines of the text. *)
Theorem compile_keeps_pending_lines (sync : bool) (st : TemplateCore)
    (toks : list string) :
  split_template_tokens (text st) = Ok toks →
  Forall (λ tk, is_flat_token tk = true) toks →
  _ops_stack st = [] →
  ∃ st1, compile sync st = (Ok tt, st1)
         ∧ _builder st1
           = Some {| b_sync := sync;
                     b_code := ((λ l, (1, l)) <$> _buffer st)
                               ++ ((λ tk, (1, flat_line tk)) <$> toks)
                               ++ [(1, return_line)];
                     b_indent_level := 0 |}.
Proof.
  intros Hsplit Hflat Hstack. rewrite compile_unfold, Hsplit.
  unfold compile_tokens.
  rewrite bind_unfold, (for_each_flat sync toks _ Hflat). cbn iota beta.
  erewrite compile_end_eq; [|exact Hstack|reflexivity|reflexivity].
  eexists. split; [reflexivity|]. core_simpl.
  rewrite fmap_app, <- list_fmap_compose, <- app_assoc. reflexivity.
Qed.

(** The text [x{% endif %}] fails to compile and leaves the line of [x]
    pending; once the text is [y], the routine writes [x] and then
    [y]. *)
Lemma compile_keeps_pending_lines_witness :
  let st := set_text "y" (compile true (TemplateCore_init "x{% endif %}")).2 in
  (compile true (TemplateCore_init "x{% endif %}")).1 = Raise IndexError
  ∧ (b_code <$> _builder (compile true st).2)
    = Some [(1, "append_result('x')"); (1, "append_result('y')"); (1, return_line)]
  ∧ (render_mode (plain_host ∅) 4 true (SafeChainMapContext []) st).1
    = Ok (Some (VStr "xy")).
Proof.
  split; [reflexivity|]. split; [|reflexivity].
  destruct (compile_keeps_pending_lines true
              (set_text "y" (compile true (TemplateCore_init "x{% endif %}")).2)
              ["y"]) as (st1 & Hc & Hb); [reflexivity|all_tokens|reflexivity|].
  cbv zeta. rewrite Hc. cbn [snd]. rewrite Hb. reflexivity.
Defined.
